(** * Mental-Health-Awareness-Website: validation, sanitisation, handlers and
      the client-side score, embedded from [src/server.js] and [src/script.js].

    JavaScript strings are sequences of UTF-16 code units, numbers are
    binary64 floats, objects used as dictionaries ([req.body], [process.env],
    [form.elements], a JSON response) are finite maps keyed by field name. *)

From Stdlib Require Import ZArith NArith List Bool Ascii String Floats Lia.
From Stdlib Require QArith.
From stdpp Require Import gmap strings list pretty.

Set Warnings "-register-all".
Open Scope Z_scope.

(* ================================================================== *)
(** ** JavaScript strings *)

(** A string is the list of its UTF-16 code units. *)
Abbreviation jsstring := (list N).

(** The code units of an ASCII literal of the source. *)
Definition lit (s : string) : jsstring :=
  map N_of_ascii (list_ascii_of_string s).

(** [s.length]. *)
Definition strlen (s : jsstring) : Z := Z.of_nat (length s).

(** [a === b] on strings. *)
Definition str_eqb (a b : jsstring) : bool := bool_decide (a = b).

(** The code units ECMAScript counts as WhiteSpace or LineTerminator: what
    [String.prototype.trim] strips and what [\s] matches. *)
Definition isWhiteSpace (c : N) : bool :=
  ((9 <=? c) && (c <=? 13) || (c =? 32) || (c =? 160) || (c =? 5760)
   || (8192 <=? c) && (c <=? 8202) || (c =? 8232) || (c =? 8233)
   || (c =? 8239) || (c =? 8287) || (c =? 12288) || (c =? 65279))%N.

Fixpoint trimStart (s : jsstring) : jsstring :=
  match s with
  | c :: s' => if isWhiteSpace c then trimStart s' else s
  | [] => []
  end.

Definition trimEnd (s : jsstring) : jsstring := rev (trimStart (rev s)).

(** [s.trim()]. *)
Definition trim (s : jsstring) : jsstring := trimEnd (trimStart s).

(** [s.startsWith(p)]. *)
Fixpoint startsWith (p s : jsstring) : bool :=
  match p, s with
  | [], _ => true
  | a :: p', b :: s' => (a =? b)%N && startsWith p' s'
  | _ :: _, [] => false
  end.

(** [s.split(sep)] for a one-unit separator: the pieces between the
    occurrences of [sep], at least one piece. *)
Fixpoint split (sep : N) (s : jsstring) : list jsstring :=
  match s with
  | [] => [[]]
  | c :: s' =>
      if (c =? sep)%N then [] :: split sep s'
      else match split sep s' with
           | piece :: rest => (c :: piece) :: rest
           | [] => [[c]]
           end
  end.

(** [pieces.join(sep)]. *)
Fixpoint join (sep : jsstring) (pieces : list jsstring) : jsstring :=
  match pieces with
  | [] => []
  | [p] => p
  | p :: rest => p ++ sep ++ join sep rest
  end.

(** [s.replace(/c/g, by)] for a one-unit pattern. *)
Fixpoint replaceAll (c : N) (by_ : jsstring) (s : jsstring) : jsstring :=
  match s with
  | [] => []
  | x :: s' => (if (x =? c)%N then by_ else [x]) ++ replaceAll c by_ s'
  end.

(* ================================================================== *)
(** ** JavaScript numbers *)

(** The double nearest to an integer (ties to even). *)
Definition number_of_Z (z : Z) : float :=
  SF2Prim (binary_normalize prec emax z 0 false).

(** [String(n)] for a non-negative integer constant of the source. *)
Definition showInt (n : Z) : jsstring := lit (pretty n).

Definition isDigit (c : N) : bool := ((48 <=? c) && (c <=? 57))%N.

(** The value of a digit in the given radix (10 or 16), if it is one. *)
Definition digitValue (radix : Z) (c : N) : option Z :=
  if isDigit c then Some (Z.of_N c - 48)
  else if (radix =? 16) && ((97 <=? c) && (c <=? 102))%N then Some (Z.of_N c - 87)
  else if (radix =? 16) && ((65 <=? c) && (c <=? 70))%N then Some (Z.of_N c - 55)
  else None.

(** The longest prefix of digits, as an integer, with the number of
    digits read. *)
Fixpoint digits (radix acc : Z) (n : nat) (s : jsstring) : Z * nat :=
  match s with
  | c :: s' =>
      match digitValue radix c with
      | Some d => digits radix (radix * acc + d) (S n) s'
      | None => (acc, n)
      end
  | [] => (acc, n)
  end.

(** [parseInt(s)]: leading white space is skipped, a sign is read, a
    [0x] or [0X] prefix selects radix 16 (radix 10 otherwise), then the
    longest run of digits is read; [NaN] when there is none. *)
Definition parseInt (s : jsstring) : float :=
  let s := trimStart s in
  let '(neg, s) :=
    match s with
    | 45%N :: s' => (true, s')
    | 43%N :: s' => (false, s')
    | _ => (false, s)
    end in
  let '(radix, s) :=
    match s with
    | 48%N :: 120%N :: s' => (16, s')
    | 48%N :: 88%N :: s' => (16, s')
    | _ => (10, s)
    end in
  match digits radix 0 0 s with
  | (_, O) => PrimFloat.nan
  | (z, _) =>
      if neg then PrimFloat.opp (number_of_Z z) else number_of_Z z
  end.

(* ================================================================== *)
(** ** JavaScript values *)

(** The values a parsed request body holds. *)
Inductive JsValue :=
| JUndefined
| JNull
| JBool (b : bool)
| JNum (x : float)
| JStr (s : jsstring)
| JArr (xs : list JsValue)
| JObj (fields : list (string * JsValue)).

(** [typeof v]. *)
Definition typeof (v : JsValue) : string :=
  match v with
  | JUndefined => "undefined"
  | JNull => "object"
  | JBool _ => "boolean"
  | JNum _ => "number"
  | JStr _ => "string"
  | JArr _ | JObj _ => "object"
  end.

(** The truth value of [v] in a condition: [undefined], [null], [false],
    [0], [NaN] and the empty string are falsy. *)
Definition truthy (v : JsValue) : bool :=
  match v with
  | JUndefined | JNull => false
  | JBool b => b
  | JNum x => negb (PrimFloat.is_zero x || PrimFloat.is_nan x)
  | JStr s => negb (bool_decide (s = []))
  | JArr _ | JObj _ => true
  end.

(** [data.k] on an object used as a dictionary: [undefined] when absent. *)
Definition get (data : gmap string JsValue) (k : string) : JsValue :=
  default JUndefined (data !! k).

(** A call either completes with a value or throws. *)
Inductive Completion (A : Type) :=
| Normal (a : A)
| Throw (e : jsstring).
Arguments Normal {A} a.
Arguments Throw {A} e.

#[global] Instance Completion_ret : MRet Completion := fun A a => Normal a.
#[global] Instance Completion_bind : MBind Completion := fun A B k c =>
  match c with
  | Normal a => k a
  | Throw e => Throw e
  end.
#[global] Instance Completion_fmap : FMap Completion := fun A B f c =>
  match c with
  | Normal a => Normal (f a)
  | Throw e => Throw e
  end.

(** The name of the error a method call on a value without that method
    raises. *)
Definition TypeError : jsstring := lit "TypeError".

(** [v.trim()]: only a string has the method. *)
Definition callTrim (v : JsValue) : Completion jsstring :=
  match v with
  | JStr s => Normal (trim s)
  | _ => Throw TypeError
  end.

(* ================================================================== *)
(** ** Regular expressions, matched by derivatives *)

Inductive regex :=
| ReNone
| ReEps
| ReClass (p : N -> bool)
| ReCat (r1 r2 : regex)
| ReAlt (r1 r2 : regex)
| ReStar (r : regex).

Fixpoint nullable (r : regex) : bool :=
  match r with
  | ReNone | ReClass _ => false
  | ReEps | ReStar _ => true
  | ReCat r1 r2 => nullable r1 && nullable r2
  | ReAlt r1 r2 => nullable r1 || nullable r2
  end.

Fixpoint deriv (c : N) (r : regex) : regex :=
  match r with
  | ReNone | ReEps => ReNone
  | ReClass p => if p c then ReEps else ReNone
  | ReCat r1 r2 =>
      if nullable r1 then ReAlt (ReCat (deriv c r1) r2) (deriv c r2)
      else ReCat (deriv c r1) r2
  | ReAlt r1 r2 => ReAlt (deriv c r1) (deriv c r2)
  | ReStar r1 => ReCat (deriv c r1) (ReStar r1)
  end.

(** [/^r$/.test(s)]. *)
Definition test (r : regex) (s : jsstring) : bool :=
  nullable (fold_left (fun r c => deriv c r) s r).

Definition RePlus (r : regex) : regex := ReCat r (ReStar r).
Definition ReChar (c : N) : regex := ReClass (N.eqb c).

(* ================================================================== *)
(** ** Validation functions ([src/server.js]) *)

(** [[^\s@]]. *)
Definition notSpaceAt (c : N) : bool := negb (isWhiteSpace c || (c =? 64)%N).

(** [/^[^\s@]+@[^\s@]+\.[^\s@]+$/]. *)
Definition emailRegex : regex :=
  ReCat (RePlus (ReClass notSpaceAt))
    (ReCat (ReChar 64)
       (ReCat (RePlus (ReClass notSpaceAt))
          (ReCat (ReChar 46) (RePlus (ReClass notSpaceAt))))).

Definition isValidEmail (email : jsstring) : bool := test emailRegex email.

(** The object [validateStringField] returns: [{valid: true, value}] or
    [{valid: false, error}]. *)
Inductive FieldValidation :=
| FieldValid (value : jsstring)
| FieldInvalid (error : jsstring).

Definition validateStringField (value : JsValue) (fieldName : jsstring)
    (minLength maxLength : Z) : FieldValidation :=
  match value with
  | JStr s =>
      let trimmed := trim s in
      if strlen trimmed <? minLength then
        FieldInvalid (fieldName ++ lit " is required (minimum "
                        ++ showInt minLength ++ lit " character).")
      else if strlen trimmed >? maxLength then
        FieldInvalid (fieldName ++ lit " exceeds maximum length of "
                        ++ showInt maxLength ++ lit " characters.")
      else FieldValid trimmed
  | _ => FieldInvalid (fieldName ++ lit " must be a string.")
  end.

(** [if (!v.valid) errors.push(v.error)]. *)
Definition pushInvalid (v : FieldValidation) (errors : list jsstring)
    : list jsstring :=
  match v with
  | FieldValid _ => errors
  | FieldInvalid e => errors ++ [e]
  end.

(** [v.value]: undefined on a failed validation, where reading it as a
    string raises.  No caller reaches that case: a failed field has pushed
    its error and the caller has returned. *)
Definition fieldValue (v : FieldValidation) : Completion jsstring :=
  match v with
  | FieldValid s => Normal s
  | FieldInvalid _ => Throw TypeError
  end.

(** [sanitizeHtml]: five global replacements, in the order of the source. *)
Definition sanitizeHtml (str : jsstring) : jsstring :=
  replaceAll 39 (lit "&#x27;")
    (replaceAll 34 (lit "&quot;")
       (replaceAll 62 (lit "&gt;")
          (replaceAll 60 (lit "&lt;")
             (replaceAll 38 (lit "&amp;") str)))).

(** What a validation function returns: [{valid: true, data}] or
    [{valid: false, errors}]. *)
Inductive Validation (A : Type) :=
| Valid (data : A)
| Invalid (errors : list jsstring).
Arguments Valid {A} data.
Arguments Invalid {A} errors.

(** The email checks shared by the registration and contact forms. *)
Definition checkEmail (email : JsValue) (errors : list jsstring)
    : list jsstring :=
  match email with
  | JStr e =>
      if negb (truthy email) then errors ++ [lit "Email is required."]
      else if negb (isValidEmail (trim e)) then
        errors ++ [lit "Email format is invalid."]
      else if strlen (trim e) >? 255 then
        errors ++ [lit "Email exceeds maximum length of 255 characters."]
      else errors
  | _ => errors ++ [lit "Email is required."]
  end.

(** [v && typeof v === 'string' && v.trim().length > max]. *)
Definition tooLong (v : JsValue) (max : Z) : bool :=
  match v with
  | JStr s => truthy v && (strlen (trim s) >? max)
  | _ => false
  end.

Record RegistrationData := {
  reg_name : jsstring;
  reg_email : jsstring;
  reg_address : jsstring;
  reg_contact : jsstring
}.

Definition validateRegistration (data : gmap string JsValue)
    : Completion (Validation RegistrationData) :=
  let errors := [] in
  let nameValidation := validateStringField (get data "name") (lit "Name") 1 100 in
  let errors := pushInvalid nameValidation errors in
  let errors := checkEmail (get data "email") errors in
  let contactValidation :=
    validateStringField (get data "contact") (lit "Contact") 1 20 in
  let errors := pushInvalid contactValidation errors in
  let errors :=
    if tooLong (get data "address") 500 then
      errors ++ [lit "Address exceeds maximum length of 500 characters."]
    else errors in
  if 0 <? Z.of_nat (length errors) then Normal (Invalid errors)
  else
    name ← fieldValue nameValidation;
    email ← callTrim (get data "email");
    address ← (if truthy (get data "address")
               then callTrim (get data "address") else Normal []);
    contact ← fieldValue contactValidation;
    Normal (Valid {| reg_name := name; reg_email := email;
                     reg_address := address; reg_contact := contact |}).

Record ContactData := {
  con_name : jsstring;
  con_email : jsstring;
  con_message : jsstring
}.

Definition validateContact (data : gmap string JsValue)
    : Completion (Validation ContactData) :=
  let errors := [] in
  let nameValidation := validateStringField (get data "name") (lit "Name") 1 100 in
  let errors := pushInvalid nameValidation errors in
  let errors := checkEmail (get data "email") errors in
  let messageValidation :=
    validateStringField (get data "message") (lit "Message") 10 5000 in
  let errors := pushInvalid messageValidation errors in
  if 0 <? Z.of_nat (length errors) then Normal (Invalid errors)
  else
    name ← fieldValue nameValidation;
    email ← callTrim (get data "email");
    message ← fieldValue messageValidation;
    Normal (Valid {| con_name := name; con_email := email;
                     con_message := message |}).

Record ScoreData := {
  sc_score : float;
  sc_details : option jsstring
}.

Definition validateScore (data : gmap string JsValue)
    : Completion (Validation ScoreData) :=
  let errors := [] in
  let errors :=
    match get data "score" with
    | JUndefined | JNull => errors ++ [lit "Score is required."]
    | JNum x =>
        if PrimFloat.ltb x 0 || PrimFloat.ltb 4 x then
          errors ++ [lit "Score must be between 0 and 4."]
        else errors
    | _ => errors ++ [lit "Score must be a number."]
    end in
  let errors :=
    if tooLong (get data "details") 1000 then
      errors ++ [lit "Details exceed maximum length of 1000 characters."]
    else errors in
  if 0 <? Z.of_nat (length errors) then Normal (Invalid errors)
  else
    score ← match get data "score" with
            | JNum x => Normal x
            | _ => Throw TypeError
            end;
    details ← (if truthy (get data "details")
               then Some <$> callTrim (get data "details") else Normal None);
    Normal (Valid {| sc_score := score; sc_details := details |}).

Record MailData := {
  mail_to : list jsstring;
  mail_subject : jsstring;
  mail_body : jsstring
}.

(** The loop over [data.to]: each element is trimmed (which raises on an
    element that is not a string) and checked. *)
Fixpoint checkRecipients (to : list JsValue) (errors : list jsstring)
    : Completion (list jsstring) :=
  match to with
  | [] => Normal errors
  | email :: rest =>
      trimmed ← callTrim email;
      let errors :=
        match email with
        | JStr e =>
            if negb (isValidEmail trimmed) then
              errors ++ [lit "Invalid email format: " ++ e]
            else errors
        | _ => errors
        end in
      checkRecipients rest errors
  end.

(** [data.to.map(e => e.trim())]. *)
Fixpoint trimAll (to : list JsValue) : Completion (list jsstring) :=
  match to with
  | [] => Normal []
  | e :: rest =>
      t ← callTrim e;
      ts ← trimAll rest;
      Normal (t :: ts)
  end.

Definition validateMail (data : gmap string JsValue)
    : Completion (Validation MailData) :=
  let errors := [] in
  errors ←
    (let to := get data "to" in
     if negb (truthy to) then
       Normal (errors ++ [lit "Recipient email is required."])
     else
       match to with
       | JArr xs => checkRecipients xs errors
       | JStr s =>
           if negb (isValidEmail (trim s)) then
             Normal (errors ++ [lit "Recipient email format is invalid."])
           else Normal errors
       | _ =>
           Normal (errors ++ [lit "Recipient must be a string or array of strings."])
       end);
  let subjectValidation :=
    validateStringField (get data "subject") (lit "Subject") 1 255 in
  let errors := pushInvalid subjectValidation errors in
  let bodyValidation :=
    validateStringField (get data "body") (lit "Message body") 1 10000 in
  let errors := pushInvalid bodyValidation errors in
  if 0 <? Z.of_nat (length errors) then Normal (Invalid errors)
  else
    to ← match get data "to" with
         | JArr xs => trimAll xs
         | v => t ← callTrim v; Normal [t]
         end;
    subject ← fieldValue subjectValidation;
    body ← fieldValue bodyValidation;
    Normal (Valid {| mail_to := to; mail_subject := subject;
                     mail_body := body |}).

(* ================================================================== *)
(** ** Persistence: four tables with AUTOINCREMENT keys *)

Record RegistrationRow := {
  r_name : jsstring;
  r_email : jsstring;
  r_address : jsstring;
  r_contact : jsstring;
  r_receivedAt : jsstring
}.

Record ContactRow := {
  c_name : jsstring;
  c_email : jsstring;
  c_message : jsstring;
  c_receivedAt : jsstring
}.

Record ScoreRow := {
  s_score : float;
  s_details : option jsstring;
  s_receivedAt : jsstring
}.

Record MailRow := {
  m_recipients : jsstring;
  m_subject : jsstring;
  m_body : jsstring;
  m_status : jsstring;
  m_sentAt : option jsstring;
  m_error : option jsstring
}.

(** A statement the server has run. *)
Inductive Stmt :=
| InsertInto (table : string) (id : Z)
| UpdateMail (id : Z) (status : jsstring).

(** The database: each table maps the primary key to its row and keeps
    the last key AUTOINCREMENT handed out; [journal] lists the statements
    run, oldest first. *)
Record Db := {
  registrations : gmap Z RegistrationRow;
  registrations_seq : Z;
  contacts : gmap Z ContactRow;
  contacts_seq : Z;
  scores : gmap Z ScoreRow;
  scores_seq : Z;
  mails : gmap Z MailRow;
  mails_seq : Z;
  journal : list Stmt
}.

(** An error object: its name and its message. *)
Record JsError := {
  err_name : jsstring;
  err_message : jsstring
}.

(** The options [nodemailer.createTransport] is given. *)
Record TransportOptions := {
  t_host : jsstring;
  t_port : float;
  t_secure : bool;
  t_auth : option (jsstring * option jsstring)
}.

(** The message [transporter.sendMail] is given. *)
Record Message := {
  msg_from : jsstring;
  msg_to : jsstring;
  msg_subject : jsstring;
  msg_text : jsstring
}.

(** What the handlers take from outside: the clock ([new Date()
    .toISOString()]), the storage engine's verdict on an INSERT (an error,
    or none), and the mail transport (an error, or none when the message
    is delivered). *)
Record World := {
  now : jsstring;
  dbError : option JsError;
  sendMail : TransportOptions -> Message -> option JsError
}.

(** [a || b] on strings. *)
Definition orElse (a b : jsstring) : jsstring :=
  if bool_decide (a = []) then b else a.

(** [a || null] on a string that may be null. *)
Definition orNull (a : option jsstring) : option jsstring :=
  match a with
  | Some s => if bool_decide (s = []) then None else Some s
  | None => None
  end.

Definition insertRegistration (w : World) (db : Db) (entry : RegistrationRow)
    : Completion (Db * Z) :=
  match dbError w with
  | Some err => Throw (err_message err)
  | None =>
      let id := registrations_seq db + 1 in
      let row := {| r_name := r_name entry; r_email := r_email entry;
                    r_address := orElse (r_address entry) [];
                    r_contact := r_contact entry;
                    r_receivedAt := r_receivedAt entry |} in
      Normal ({| registrations := <[id := row]> (registrations db);
                 registrations_seq := id;
                 contacts := contacts db; contacts_seq := contacts_seq db;
                 scores := scores db; scores_seq := scores_seq db;
                 mails := mails db; mails_seq := mails_seq db;
                 journal := journal db ++ [InsertInto "registrations" id] |}, id)
  end.

Definition insertContact (w : World) (db : Db) (entry : ContactRow)
    : Completion (Db * Z) :=
  match dbError w with
  | Some err => Throw (err_message err)
  | None =>
      let id := contacts_seq db + 1 in
      Normal ({| registrations := registrations db;
                 registrations_seq := registrations_seq db;
                 contacts := <[id := entry]> (contacts db); contacts_seq := id;
                 scores := scores db; scores_seq := scores_seq db;
                 mails := mails db; mails_seq := mails_seq db;
                 journal := journal db ++ [InsertInto "contacts" id] |}, id)
  end.

(** The row holds the values handed to [stmt.run].  For the score that is
    the number as the handler has it; the storage engine reads a negative
    zero back as zero and every other number as itself, so a statement on
    the stored score of a number that may be zero compares the two with
    [PrimFloat.eqb]. *)
Definition insertScore (w : World) (db : Db) (entry : ScoreRow)
    : Completion (Db * Z) :=
  match dbError w with
  | Some err => Throw (err_message err)
  | None =>
      let id := scores_seq db + 1 in
      let row := {| s_score := s_score entry;
                    s_details := orNull (s_details entry);
                    s_receivedAt := s_receivedAt entry |} in
      Normal ({| registrations := registrations db;
                 registrations_seq := registrations_seq db;
                 contacts := contacts db; contacts_seq := contacts_seq db;
                 scores := <[id := row]> (scores db); scores_seq := id;
                 mails := mails db; mails_seq := mails_seq db;
                 journal := journal db ++ [InsertInto "scores" id] |}, id)
  end.

Definition insertMail (w : World) (db : Db) (record : MailRow)
    : Completion (Db * Z) :=
  match dbError w with
  | Some err => Throw (err_message err)
  | None =>
      let id := mails_seq db + 1 in
      let row := {| m_recipients := m_recipients record;
                    m_subject := m_subject record; m_body := m_body record;
                    m_status := m_status record;
                    m_sentAt := orNull (m_sentAt record);
                    m_error := orNull (m_error record) |} in
      Normal ({| registrations := registrations db;
                 registrations_seq := registrations_seq db;
                 contacts := contacts db; contacts_seq := contacts_seq db;
                 scores := scores db; scores_seq := scores_seq db;
                 mails := <[id := row]> (mails db); mails_seq := id;
                 journal := journal db ++ [InsertInto "mails" id] |}, id)
  end.

(** [db.run('UPDATE mails SET ... WHERE id = ?')]: the row with that key,
    if there is one, is rewritten by [set].  The source queues the
    statement without a callback; it is taken to run, and to succeed. *)
Definition updateMail (db : Db) (id : Z) (status : jsstring)
    (set : MailRow -> MailRow) : Db :=
  {| registrations := registrations db;
     registrations_seq := registrations_seq db;
     contacts := contacts db; contacts_seq := contacts_seq db;
     scores := scores db; scores_seq := scores_seq db;
     mails := alter set id (mails db); mails_seq := mails_seq db;
     journal := journal db ++ [UpdateMail id status] |}.

Definition setStatus (status : jsstring) (r : MailRow) : MailRow :=
  {| m_recipients := m_recipients r; m_subject := m_subject r;
     m_body := m_body r; m_status := status;
     m_sentAt := m_sentAt r; m_error := m_error r |}.

Definition setSent (status sentAt : jsstring) (r : MailRow) : MailRow :=
  {| m_recipients := m_recipients r; m_subject := m_subject r;
     m_body := m_body r; m_status := status;
     m_sentAt := Some sentAt; m_error := m_error r |}.

Definition setFailed (status error : jsstring) (r : MailRow) : MailRow :=
  {| m_recipients := m_recipients r; m_subject := m_subject r;
     m_body := m_body r; m_status := status;
     m_sentAt := m_sentAt r; m_error := Some error |}.

(* ================================================================== *)
(** ** HTTP route handlers *)

Inductive ResBody :=
| Json (o : gmap string JsValue)
| Text (s : jsstring).

(** A response: the status, the headers the handler set itself, the body. *)
Record Response := {
  status : Z;
  headers : gmap string jsstring;
  body : ResBody
}.

(** A handler either responds or lets an exception escape. *)
Inductive Outcome :=
| Responded (r : Response)
| Unhandled (e : jsstring).

(** An object literal. *)
Definition obj (fields : list (string * JsValue)) : gmap string JsValue :=
  list_to_map fields.

(** [res.status(code).json(o)]; [res.json(o)] is [json 200 o]. *)
Definition json (code : Z) (fields : list (string * JsValue)) : Outcome :=
  Responded {| status := code; headers := ∅; body := Json (obj fields) |}.

Definition errorList (errors : list jsstring) : JsValue := JArr (JStr <$> errors).

Definition register (w : World) (db : Db) (reqBody : gmap string JsValue)
    : Db * Outcome :=
  match validateRegistration reqBody with
  | Throw e => (db, Unhandled e)
  | Normal (Invalid errors) =>
      (db, json 400 [("success", JBool false); ("errors", errorList errors)])
  | Normal (Valid data) =>
      let entry := {| r_name := sanitizeHtml (reg_name data);
                      r_email := reg_email data;
                      r_address := sanitizeHtml (reg_address data);
                      r_contact := reg_contact data;
                      r_receivedAt := now w |} in
      match insertRegistration w db entry with
      | Normal (db', id) =>
          (db', json 200 [("success", JBool true); ("id", JNum (number_of_Z id));
                          ("message", JStr (lit "Registration successful."))])
      | Throw _ =>
          (db, json 500 [("success", JBool false);
                         ("message", JStr (lit "Could not save registration."))])
      end
  end.

Definition contact (w : World) (db : Db) (reqBody : gmap string JsValue)
    : Db * Outcome :=
  match validateContact reqBody with
  | Throw e => (db, Unhandled e)
  | Normal (Invalid errors) =>
      (db, json 400 [("success", JBool false); ("errors", errorList errors)])
  | Normal (Valid data) =>
      let entry := {| c_name := sanitizeHtml (con_name data);
                      c_email := con_email data;
                      c_message := sanitizeHtml (con_message data);
                      c_receivedAt := now w |} in
      match insertContact w db entry with
      | Normal (db', id) =>
          (db', json 200 [("success", JBool true); ("id", JNum (number_of_Z id));
                          ("message", JStr (lit "Contact form submitted successfully."))])
      | Throw _ =>
          (db, json 500 [("success", JBool false);
                         ("message", JStr (lit "Could not save contact."))])
      end
  end.

Definition score (w : World) (db : Db) (reqBody : gmap string JsValue)
    : Db * Outcome :=
  match validateScore reqBody with
  | Throw e => (db, Unhandled e)
  | Normal (Invalid errors) =>
      (db, json 400 [("success", JBool false); ("errors", errorList errors)])
  | Normal (Valid data) =>
      let entry := {| s_score := sc_score data;
                      s_details := sc_details data;
                      s_receivedAt := now w |} in
      match insertScore w db entry with
      | Normal (db', id) =>
          (db', json 200 [("success", JBool true); ("id", JNum (number_of_Z id));
                          ("message", JStr (lit "Score recorded successfully."))])
      | Throw _ =>
          (db, json 500 [("success", JBool false);
                         ("message", JStr (lit "Could not save score."))])
      end
  end.

(** [process.env.K] as a condition: set and not empty. *)
Definition envSet (env : gmap string jsstring) (k : string) : option jsstring :=
  match env !! k with
  | Some v => if bool_decide (v = []) then None else Some v
  | None => None
  end.

Definition createTransport (env : gmap string jsstring) (smtpHost : jsstring)
    : TransportOptions :=
  {| t_host := smtpHost;
     t_port := match envSet env "SMTP_PORT" with
               | Some p => parseInt p
               | None => 587%float
               end;
     t_secure := bool_decide (env !! "SMTP_SECURE" = Some (lit "true"));
     t_auth := match envSet env "SMTP_USER" with
               | Some u => Some (u, env !! "SMTP_PASS")
               | None => None
               end |}.

(** [String(sendErr.message || sendErr)]: an error with an empty message
    prints as its name. *)
Definition errorText (e : JsError) : jsstring :=
  orElse (err_message e) (err_name e).

Definition send_mail (env : gmap string jsstring) (w : World) (db : Db)
    (reqBody : gmap string JsValue) : Db * Outcome :=
  match validateMail reqBody with
  | Throw e => (db, Unhandled e)
  | Normal (Invalid errors) =>
      (db, json 400 [("success", JBool false); ("errors", errorList errors)])
  | Normal (Valid data) =>
      let recipients := join (lit ",") (mail_to data) in
      let record := {| m_recipients := recipients;
                       m_subject := sanitizeHtml (mail_subject data);
                       m_body := sanitizeHtml (mail_body data);
                       m_status := lit "pending";
                       m_sentAt := None;
                       m_error := None |} in
      match insertMail w db record with
      | Throw _ =>
          (db, json 500 [("success", JBool false);
                         ("message", JStr (lit "Could not record mail."))])
      | Normal (db1, mailId) =>
          match envSet env "SMTP_HOST" with
          | Some smtpHost =>
              let transporter := createTransport env smtpHost in
              let message :=
                {| msg_from := match envSet env "SMTP_FROM" with
                               | Some f => f
                               | None => lit "noreply@example.com"
                               end;
                   msg_to := recipients;
                   msg_subject := mail_subject data;
                   msg_text := mail_body data |} in
              match sendMail w transporter message with
              | None =>
                  (updateMail db1 mailId (lit "sent") (setSent (lit "sent") (now w)),
                   json 200 [("success", JBool true);
                             ("id", JNum (number_of_Z mailId));
                             ("sent", JBool true);
                             ("message", JStr (lit "Email sent successfully."))])
              | Some sendErr =>
                  (updateMail db1 mailId (lit "failed")
                     (setFailed (lit "failed") (errorText sendErr)),
                   json 500 [("success", JBool false);
                             ("id", JNum (number_of_Z mailId));
                             ("sent", JBool false);
                             ("message", JStr (lit "Mail send failed, logged."))])
              end
          | None =>
              (updateMail db1 mailId (lit "mocked") (setStatus (lit "mocked")),
               json 200 [("success", JBool true);
                         ("id", JNum (number_of_Z mailId));
                         ("sent", JBool false);
                         ("message", JStr (lit "No SMTP configured; mail recorded."))])
          end
      end
  end.

(* ================================================================== *)
(** ** Admin gate (Basic HTTP Auth) *)

Record Credentials := {
  user : jsstring;
  pass : jsstring
}.

(** A middleware either hands over to the next handler or responds. *)
Inductive Middleware :=
| Next
| Respond (r : Response).

Section Admin.

(** [Buffer.from(token, 'base64').toString()], the platform's decoder. *)
Variable decodeBase64 : jsstring -> jsstring.

Definition parseBasicAuth (reqHeaders : gmap string jsstring)
    : option Credentials :=
  match reqHeaders !! "authorization" with
  | None => None
  | Some h =>
      if bool_decide (h = []) || negb (startsWith (lit "Basic ") h) then None
      else
        let parts := split 58 (decodeBase64 (nth 1 (split 32 h) [])) in
        Some {| user := orElse (hd [] parts) [];
                pass := orElse (join (lit ":") (tl parts)) [] |}
  end.

(** [Basic realm="Admin Area"]. *)
Definition realm : jsstring :=
  lit "Basic realm=" ++ [34%N] ++ lit "Admin Area" ++ [34%N].

Definition unauthorized (text : jsstring) : Middleware :=
  Respond {| status := 401;
             headers := {[ "WWW-Authenticate" := realm ]};
             body := Text text |}.

(** [process.env.ADMIN_USER || 'admin']. *)
Definition adminUser (env : gmap string jsstring) : jsstring :=
  match envSet env "ADMIN_USER" with
  | Some u => u
  | None => lit "admin"
  end.

(** [process.env.ADMIN_PASS || 'admin123']. *)
Definition adminPass (env : gmap string jsstring) : jsstring :=
  match envSet env "ADMIN_PASS" with
  | Some p => p
  | None => lit "admin123"
  end.

Definition requireAdmin (env : gmap string jsstring)
    (reqHeaders : gmap string jsstring) : Middleware :=
  match parseBasicAuth reqHeaders with
  | None => unauthorized (lit "Authentication required")
  | Some creds =>
      if str_eqb (user creds) (adminUser env)
         && str_eqb (pass creds) (adminPass env)
      then Next
      else unauthorized (lit "Invalid credentials")
  end.

(** [app.get('/admin', requireAdmin, handler)]: the handler that renders
    the table dumps runs only when the gate calls [next()]. *)
Definition adminRoute (env : gmap string jsstring)
    (reqHeaders : gmap string jsstring) (handler : Outcome) : Outcome :=
  match requireAdmin env reqHeaders with
  | Next => handler
  | Respond r => Responded r
  end.

End Admin.

(** A base64 decoder for credentials in ASCII, to run the gate on concrete
    headers: decoding stops at the first unit outside the alphabet. *)
Definition sextet (c : N) : option N :=
  (if (65 <=? c) && (c <=? 90) then Some (c - 65)
   else if (97 <=? c) && (c <=? 122) then Some (c - 71)
   else if (48 <=? c) && (c <=? 57) then Some (c + 4)
   else if (c =? 43) || (c =? 45) then Some 62
   else if (c =? 47) || (c =? 95) then Some 63
   else None)%N.

Fixpoint sextets (s : jsstring) : list N :=
  match s with
  | c :: s' => match sextet c with
               | Some v => v :: sextets s'
               | None => []
               end
  | [] => []
  end.

Fixpoint octets (fuel : nat) (l : list N) : list N :=
  match fuel, l with
  | S fuel', a :: b :: c :: d :: rest =>
      (a * 4 + b / 16 :: (b mod 16) * 16 + c / 4 :: (c mod 4) * 64 + d
         :: octets fuel' rest)%N
  | _, [a; b; c] => [a * 4 + b / 16; (b mod 16) * 16 + c / 4]%N
  | _, [a; b] => [a * 4 + b / 16]%N
  | _, _ => []
  end.

Definition base64Ascii (s : jsstring) : jsstring :=
  let l := sextets s in octets (length l) l.

(* ================================================================== *)
(** ** Client script ([src/script.js]) *)

(** The results container: the three properties [calculateScore] writes. *)
Record Container := {
  innerHTML : jsstring;
  backgroundColor : jsstring;
  color : jsstring
}.

(** What a run of [calculateScore] does: it shows the warning and
    returns, or it shows the result for a category and posts the average
    to [/api/score]. *)
Inductive ScoreOutcome :=
| Warned (c : Container)
| Scored (mentalHealthState : jsstring) (c : Container) (posted : float).

Definition questionsCount : Z := 12.

(** ['q' + i]. *)
Definition questionName (i : nat) : string := "q" +:+ pretty i.

(** One turn of the loop over the questions: [elements] maps a control's
    name to its value, the empty string for a group with nothing selected. *)
Definition tallyStep (elements : gmap string jsstring) (acc : float * Z)
    (i : nat) : float * Z :=
  let '(totalScore, answeredQuestions) := acc in
  match elements !! questionName i with
  | Some value =>
      if negb (bool_decide (value = [])) then
        (PrimFloat.add totalScore (parseInt value), answeredQuestions + 1)
      else (totalScore, answeredQuestions)
  | None => (totalScore, answeredQuestions)
  end.

(** The loop [for (let i = 1; i <= questionsCount; i++)]. *)
Definition tally (elements : gmap string jsstring) : float * Z :=
  fold_left (tallyStep elements) (seq 1 (Z.to_nat questionsCount)) (0%float, 0).

(** The category, the advice and the two colours for an average. *)
Definition band (averageScore : float)
    : jsstring * jsstring * jsstring * jsstring :=
  if PrimFloat.leb 3.5 averageScore then
    (lit "Healthy",
     lit "You seem to be in a good mental state. Keep maintaining your healthy habits, stay connected with others, and continue to prioritize your well-being.",
     lit "#d4edda", lit "#155724")
  else if PrimFloat.leb 3 averageScore then
    (lit "Mild Concerns",
     lit "You may be experiencing some minor stress or emotional challenges. It's a good time to focus on self-care, such as exercise, nutrition, and mindfulness. Talking to a friend or family member may also be helpful.",
     lit "#fff3cd", lit "#856404")
  else if PrimFloat.leb 2.5 averageScore then
    (lit "Moderate Concerns",
     lit "Your responses suggest you are facing notable mental health challenges. It is highly recommended to speak with a trusted individual. Exploring resources on our site or contacting a professional could provide significant support.",
     lit "#f8d7da", lit "#721c24")
  else
    (lit "Severe Concerns",
     lit "It appears you are going through a difficult time. Please prioritize your mental health and seek professional help. You are not alone, and support is available. Please visit our <a href="
       ++ [34%N] ++ lit "Contact.html" ++ [34%N]
       ++ lit ">Contact</a> page to find a professional near you.",
     lit "#dc3545", lit "white").

Definition calculateScore (elements : gmap string jsstring) : ScoreOutcome :=
  let '(totalScore, answeredQuestions) := tally elements in
  if answeredQuestions <? questionsCount then
    Warned {| innerHTML := lit "<h3>Please answer all questions to see your score.</h3>";
              backgroundColor := lit "#ffc107";
              color := lit "#333" |}
  else
    let averageScore := PrimFloat.div totalScore (number_of_Z questionsCount) in
    let '(mentalHealthState, advice, bg, fg) := band averageScore in
    Scored mentalHealthState
      {| innerHTML := [10%N] ++ lit "        <h3>Your Result: " ++ mentalHealthState
                        ++ lit "</h3>" ++ [10%N] ++ lit "        <p>" ++ advice
                        ++ lit "</p>" ++ [10%N] ++ lit "    ";
         backgroundColor := bg;
         color := fg |}
      averageScore.

(* ================================================================== *)
(** * Definitions used in the statements *)

(** ** The vocabulary of the statements *)

(** The entity the sanitisation layer writes for one code unit: the five
    HTML-significant characters get theirs, every other unit stays. *)
Definition escapeUnit (c : N) : jsstring :=
  if (c =? 38)%N then lit "&amp;"
  else if (c =? 60)%N then lit "&lt;"
  else if (c =? 62)%N then lit "&gt;"
  else if (c =? 34)%N then lit "&quot;"
  else if (c =? 39)%N then lit "&#x27;"
  else [c].

(** The category the spec gives a total of twelve answers: the average is
    [total / 12]. *)
Definition categoryOfAverage (average : QArith_base.Q) : jsstring :=
  if QArith_base.Qle_bool (QArith_base.Qmake 7 2) average then lit "Healthy"
  else if QArith_base.Qle_bool (QArith_base.Qmake 3 1) average then lit "Mild Concerns"
  else if QArith_base.Qle_bool (QArith_base.Qmake 5 2) average then lit "Moderate Concerns"
  else lit "Severe Concerns".

(** The sum of the answers. *)
Definition sumZ (l : list Z) : Z := foldr Z.add 0 l.

(** Question [i] has no answer: its group is absent from the form, or
    nothing in it is selected. *)
Definition unanswered (elements : gmap string jsstring) (i : nat) : Prop :=
  elements !! questionName i = None \/ elements !! questionName i = Some [].

(** The error [validateStringField] reports for an empty name. *)
Definition nameRequired : jsstring :=
  lit "Name is required (minimum 1 character).".

(** The error [validateStringField] reports for a short message. *)
Definition messageRequired : jsstring :=
  lit "Message is required (minimum 10 character).".

(** The record [send_mail] inserts for validated data. *)
Definition pendingRecord (data : MailData) : MailRow :=
  {| m_recipients := join (lit ",") (mail_to data);
     m_subject := sanitizeHtml (mail_subject data);
     m_body := sanitizeHtml (mail_body data);
     m_status := lit "pending";
     m_sentAt := None;
     m_error := None |}.

(** The message [send_mail] hands to the transport. *)
Definition smtpMessage (env : gmap string jsstring) (data : MailData) : Message :=
  {| msg_from := match envSet env "SMTP_FROM" with
                 | Some f => f
                 | None => lit "noreply@example.com"
                 end;
     msg_to := join (lit ",") (mail_to data);
     msg_subject := mail_subject data;
     msg_text := mail_body data |}.

(** The JSON the mail handler answers with once the record is inserted. *)
Definition mailReply (code : Z) (success : bool) (id : Z) (sent : bool)
    (message : string) : Outcome :=
  json code [("success", JBool success); ("id", JNum (number_of_Z id));
             ("sent", JBool sent); ("message", JStr (lit message))].

(** The three statuses a delivery attempt ends in. *)
Definition finalStatuses : list jsstring :=
  [lit "sent"; lit "failed"; lit "mocked"].

(** A field of the JSON body of a response, if the body is JSON and has
    the field. *)
Definition field (r : Response) (k : string) : option JsValue :=
  match body r with
  | Json o => o !! k
  | Text _ => None
  end.

(** [{success: true, id, message}] with status 200, for that id and that
    message; no error list. *)
Definition successShape (id : Z) (message : string) (r : Response) : Prop :=
  status r = 200
  /\ field r "success" = Some (JBool true)
  /\ field r "id" = Some (JNum (number_of_Z id))
  /\ field r "message" = Some (JStr (lit message))
  /\ field r "errors" = None.

(** [{success: false, errors}] with status 400, and neither a message nor
    an id. *)
Definition invalidShape (errors : list jsstring) (r : Response) : Prop :=
  status r = 400
  /\ field r "success" = Some (JBool false)
  /\ field r "errors" = Some (errorList errors)
  /\ field r "message" = None
  /\ field r "id" = None.

(** [{success: false, message}] with status 500, for that message; no
    error list. *)
Definition failureShape (message : string) (r : Response) : Prop :=
  status r = 500
  /\ field r "success" = Some (JBool false)
  /\ field r "message" = Some (JStr (lit message))
  /\ field r "errors" = None.

(** What a form handler answers and stores, by the verdict of its
    validation function and of the storage engine: [table] is the handler's
    table, [last] its AUTOINCREMENT counter, [okMessage] and [failMessage]
    its two messages.  Nothing is said of a request on which validation
    raises. *)
Definition handlerContract {A R}
    (validate : gmap string JsValue -> Completion (Validation A))
    (handler : World -> Db -> gmap string JsValue -> Db * Outcome)
    (table : Db -> gmap Z R) (last : Db -> Z)
    (okMessage failMessage : string) : Prop :=
  forall w db reqBody,
    let res := handler w db reqBody in
    match validate reqBody with
    | Normal (Invalid errors) =>
        fst res = db
        /\ exists r, snd res = Responded r /\ invalidShape errors r
    | Normal (Valid _) =>
        match dbError w with
        | None =>
            let id := last db + 1 in
            (exists row, table (fst res) = <[id := row]> (table db))
            /\ exists r, snd res = Responded r /\ successShape id okMessage r
        | Some _ =>
            fst res = db
            /\ exists r, snd res = Responded r /\ failureShape failMessage r
        end
    | Throw _ => True
    end.

(** The same for the mail handler, where the transport decides between
    200 and 500 once the record is inserted, and the body also says whether
    the mail was sent. *)
Definition mailContract (env : gmap string jsstring) : Prop :=
  forall w db reqBody,
    let res := send_mail env w db reqBody in
    match validateMail reqBody with
    | Normal (Invalid errors) =>
        fst res = db
        /\ exists r, snd res = Responded r /\ invalidShape errors r
    | Normal (Valid data) =>
        match dbError w with
        | None =>
            let id := mails_seq db + 1 in
            (exists row, mails (fst res) = <[id := row]> (mails db))
            /\ exists r,
                 snd res = Responded r
                 /\ field r "id" = Some (JNum (number_of_Z id))
                 /\ match envSet env "SMTP_HOST" with
                    | Some smtpHost =>
                        match sendMail w (createTransport env smtpHost)
                                (smtpMessage env data) with
                        | None =>
                            successShape id "Email sent successfully." r
                            /\ field r "sent" = Some (JBool true)
                        | Some _ =>
                            failureShape "Mail send failed, logged." r
                            /\ field r "sent" = Some (JBool false)
                        end
                    | None =>
                        successShape id "No SMTP configured; mail recorded." r
                        /\ field r "sent" = Some (JBool false)
                    end
        | Some _ =>
            fst res = db
            /\ exists r, snd res = Responded r
                         /\ failureShape "Could not record mail." r
        end
    | Throw _ => True
    end.

(** ** Concrete inputs *)

(** A database with no rows. *)
Definition emptyDb : Db :=
  {| registrations := ∅; registrations_seq := 0;
     contacts := ∅; contacts_seq := 0;
     scores := ∅; scores_seq := 0;
     mails := ∅; mails_seq := 0;
     journal := [] |}.

(** A world whose storage engine and transport both succeed. *)
Definition quietWorld : World :=
  {| now := lit "2024-01-01T00:00:00.000Z";
     dbError := None;
     sendMail := fun _ _ => None |}.

(** The error a transport raises when the server refuses the connection. *)
Definition refusal : JsError :=
  {| err_name := lit "Error"; err_message := lit "connect ECONNREFUSED" |}.

(** A world whose transport refuses every message. *)
Definition refusingWorld : World :=
  {| now := lit "2024-01-01T00:00:00.000Z";
     dbError := None;
     sendMail := fun _ _ => Some refusal |}.

(** A world whose storage engine rejects every INSERT. *)
Definition brokenDbWorld : World :=
  {| now := lit "2024-01-01T00:00:00.000Z";
     dbError := Some {| err_name := lit "Error"; err_message := lit "SQLITE_FULL" |};
     sendMail := fun _ _ => None |}.

(** A valid mail request with one recipient. *)
Definition mailRequest : gmap string JsValue :=
  obj [("to", JStr (lit " a@b.co ")); ("subject", JStr (lit "Hi <all>"));
       ("body", JStr (lit "Tom & Jerry"))].

(** What [validateMail] returns for [mailRequest]. *)
Definition mailRequestData : MailData :=
  {| mail_to := [lit "a@b.co"]; mail_subject := lit "Hi <all>";
     mail_body := lit "Tom & Jerry" |}.

(** An environment with SMTP configured. *)
Definition smtpEnv : gmap string jsstring :=
  {[ "SMTP_HOST" := lit "smtp.example.com" ]}.

(** A mail request whose recipient list is the empty array. *)
Definition emptyToRequest : gmap string JsValue :=
  obj [("to", JArr []); ("subject", JStr (lit "Hello"));
       ("body", JStr (lit "Is anyone there?"))].

(** A contact submission with a valid name and email. *)
Definition contactRequest (message : jsstring) : gmap string JsValue :=
  obj [("name", JStr (lit "Ada")); ("email", JStr (lit "ada@example.org"));
       ("message", JStr message)].

(** A registration whose free text holds markup. *)
Definition registrationRequest : gmap string JsValue :=
  obj [("name", JStr (lit " <b>Ann</b> ")); ("email", JStr (lit "ann@example.org"));
       ("contact", JStr (lit "555-0100")); ("address", JStr (lit "1 O'Neil & Sons"))].

(** The headers of a request carrying a Basic-Auth token. *)
Definition adminHeaders (token : string) : gmap string jsstring :=
  {[ "authorization" := lit "Basic " ++ lit token ]}.

(** Modelled from the spec: the page markup that gives each radio button
    its value is not among the sources; the value of a group is taken to be
    the decimal numeral of its answer.  [formOf answers] is the form whose
    groups q1, q2, ... hold the given answers. *)
Definition formOf (answers : list Z) : gmap string jsstring :=
  list_to_map (imap (fun i a => (questionName (S i), showInt a)) answers).

(** Twelve answers whose average is 3.5. *)
Definition healthyAnswers : list Z := [4; 4; 4; 4; 3; 3; 3; 3; 4; 4; 3; 3].

(* ================================================================== *)
(** * Further definitions *)

(** ** The language of a regular expression *)

(** [matches r s]: the whole of [s] is in the language of [r]. *)
Inductive matches : regex -> jsstring -> Prop :=
| MEps : matches ReEps []
| MClass p c : p c = true -> matches (ReClass p) [c]
| MCat r1 r2 s1 s2 :
    matches r1 s1 -> matches r2 s2 -> matches (ReCat r1 r2) (s1 ++ s2)
| MAltL r1 r2 s : matches r1 s -> matches (ReAlt r1 r2) s
| MAltR r1 r2 s : matches r2 s -> matches (ReAlt r1 r2) s
| MStarNil r : matches (ReStar r) []
| MStarApp r s1 s2 :
    matches r s1 -> matches (ReStar r) s2 -> matches (ReStar r) (s1 ++ s2).

(** A non-empty run of units that are neither white space nor [@]. *)
Definition emailPart (s : jsstring) : Prop :=
  s <> [] /\ Forall (fun c => notSpaceAt c = true) s.

(** ** Validated fields *)

(** Every unit of [s] is white space. *)
Definition blank (s : jsstring) : Prop :=
  Forall (fun c => isWhiteSpace c = true) s.

(** [s] neither starts nor ends with white space. *)
Definition tight (s : jsstring) : Prop :=
  (forall c s', s = c :: s' -> isWhiteSpace c = false)
  /\ (forall c s', s = s' ++ [c] -> isWhiteSpace c = false).

(** The email field passes the checks of the registration and contact
    forms: a non-empty string whose trimmed form has the email pattern and
    at most 255 units. *)
Definition emailAccepted (v : JsValue) (email : jsstring) : Prop :=
  exists e, v = JStr e /\ e <> [] /\ email = trim e
            /\ isValidEmail (trim e) = true /\ strlen (trim e) <= 255.

(** The field is a string whose trimmed form has between [lo] and [hi]
    units. *)
Definition fieldAccepted (v : JsValue) (lo hi : Z) (value : jsstring) : Prop :=
  exists s, v = JStr s /\ value = trim s /\ lo <= strlen (trim s) <= hi.

(** The optional free-text field is left out (absent, null, empty, false
    or zero), read as the empty value, or is a string within the bound. *)
Definition optionalAccepted (v : JsValue) (max : Z) (value : option jsstring) : Prop :=
  (truthy v = false /\ value = None)
  \/ exists s, v = JStr s /\ s <> [] /\ strlen (trim s) <= max /\ value = Some (trim s).

(** The optional field holds something that is not a string. *)
Definition notText (v : JsValue) : Prop :=
  truthy v = true /\ forall s, v <> JStr s.

(** The score is a number that is neither below 0 nor above 4. *)
Definition scoreAccepted (v : JsValue) (x : float) : Prop :=
  v = JNum x /\ PrimFloat.ltb x 0 = false /\ PrimFloat.ltb 4 x = false.

(** The recipients are one non-empty string with the email pattern after
    trimming, or an array of strings each with the email pattern after
    trimming. *)
Definition recipientsAccepted (v : JsValue) (to : list jsstring) : Prop :=
  (exists s, v = JStr s /\ s <> [] /\ isValidEmail (trim s) = true /\ to = [trim s])
  \/ (exists ss, v = JArr (JStr <$> ss)
                 /\ Forall (fun s => isValidEmail (trim s) = true) ss
                 /\ to = trim <$> ss).

(** Some element of the array is not a string. *)
Definition holdsNonString (xs : list JsValue) : Prop :=
  exists x, x ∈ xs /\ forall s, x <> JStr s.

(** The first step of [validateMail]: the checks on [data.to]. *)
Definition recipientStage (to : JsValue) : Completion (list jsstring) :=
  if negb (truthy to) then Normal ([] ++ [lit "Recipient email is required."])
  else
    match to with
    | JArr xs => checkRecipients xs []
    | JStr s =>
        if negb (isValidEmail (trim s)) then
          Normal ([] ++ [lit "Recipient email format is invalid."])
        else Normal []
    | _ => Normal ([] ++ [lit "Recipient must be a string or array of strings."])
    end.

(** The error [checkRecipients] pushes for a recipient it rejects. *)
Definition invalidRecipient (e : jsstring) : jsstring :=
  lit "Invalid email format: " ++ e.

(** The recipients [validateMail] returns: the trimmed elements of an
    array, or the one trimmed string. *)
Definition recipientList (to : JsValue) : Completion (list jsstring) :=
  match to with
  | JArr xs => trimAll xs
  | JUndefined => t ← callTrim JUndefined; Normal [t]
  | JNull => t ← callTrim JNull; Normal [t]
  | JBool b => t ← callTrim (JBool b); Normal [t]
  | JNum x => t ← callTrim (JNum x); Normal [t]
  | JStr s => t ← callTrim (JStr s); Normal [t]
  | JObj fields => t ← callTrim (JObj fields); Normal [t]
  end.

(** ** Escaping *)

(** One of the five characters the escaping replaces. *)
Definition isSpecial (c : N) : bool :=
  ((c =? 38) || (c =? 60) || (c =? 62) || (c =? 34) || (c =? 39))%N.

(** [s] holds none of the five characters. *)
Definition htmlClean (s : jsstring) : Prop :=
  Forall (fun c => isSpecial c = false) s.

Section Display.

(** [String(v)], the platform's conversion of a value to a string. *)
Variable toString : JsValue -> jsstring.

(** [htmlEscape], which the admin page applies to every cell: nothing for
    null and undefined, else the string form with the five replacements. *)
Definition htmlEscape (s : JsValue) : jsstring :=
  match s with
  | JNull | JUndefined => []
  | _ =>
      replaceAll 39 (lit "&#x27;")
        (replaceAll 34 (lit "&quot;")
           (replaceAll 62 (lit "&gt;")
              (replaceAll 60 (lit "&lt;")
                 (replaceAll 38 (lit "&amp;") (toString s)))))
  end.

End Display.

(** A conversion for the examples: a string is itself. *)
Definition textOnly (v : JsValue) : jsstring :=
  match v with
  | JStr s => s
  | _ => []
  end.

(** ** The tables *)

(** Every key of the table lies between 1 and the last key handed out. *)
Definition keysBelow {R} (rows : gmap Z R) (last : Z) : Prop :=
  forall id, is_Some (rows !! id) -> 1 <= id <= last.

(** The four tables hold no key beyond their AUTOINCREMENT counters,
    which are not negative. *)
Definition wellKeyed (db : Db) : Prop :=
  (keysBelow (registrations db) (registrations_seq db)
   /\ keysBelow (contacts db) (contacts_seq db)
   /\ keysBelow (scores db) (scores_seq db)
   /\ keysBelow (mails db) (mails_seq db))
  /\ (0 <= registrations_seq db /\ 0 <= contacts_seq db
      /\ 0 <= scores_seq db /\ 0 <= mails_seq db).

(** Every row of [db] is still in [db'], under the same key, unchanged. *)
Definition keepsRows (db db' : Db) : Prop :=
  (forall id row, registrations db !! id = Some row -> registrations db' !! id = Some row)
  /\ (forall id row, contacts db !! id = Some row -> contacts db' !! id = Some row)
  /\ (forall id row, scores db !! id = Some row -> scores db' !! id = Some row)
  /\ (forall id row, mails db !! id = Some row -> mails db' !! id = Some row).

(** The four handlers, by route. *)
Inductive Route := RegisterRoute | ContactRoute | ScoreRoute | SendMailRoute.

Definition handle (route : Route) (env : gmap string jsstring) (w : World)
    (db : Db) (reqBody : gmap string JsValue) : Db * Outcome :=
  match route with
  | RegisterRoute => register w db reqBody
  | ContactRoute => contact w db reqBody
  | ScoreRoute => score w db reqBody
  | SendMailRoute => send_mail env w db reqBody
  end.

(** A sequence of requests served one after the other, each in the world
    it arrives in. *)
Fixpoint serve (env : gmap string jsstring) (db : Db)
    (requests : list (World * Route * gmap string JsValue)) : Db :=
  match requests with
  | [] => db
  | (w, route, reqBody) :: rest =>
      serve env (fst (handle route env w db reqBody)) rest
  end.

(** The table a route writes to holds a row under [id]. *)
Definition rowStored (route : Route) (db : Db) (id : Z) : Prop :=
  match route with
  | RegisterRoute => is_Some (registrations db !! id)
  | ContactRoute => is_Some (contacts db !! id)
  | ScoreRoute => is_Some (scores db !! id)
  | SendMailRoute => is_Some (mails db !! id)
  end.

(** What one request can do to the database: nothing, or one new row in
    the handler's own table under the next key. *)
Inductive Written (db db' : Db) : Prop :=
| WroteNothing : db' = db -> Written db db'
| WroteRegistration row :
    registrations db' = <[registrations_seq db + 1 := row]> (registrations db) ->
    registrations_seq db' = registrations_seq db + 1 ->
    contacts db' = contacts db -> contacts_seq db' = contacts_seq db ->
    scores db' = scores db -> scores_seq db' = scores_seq db ->
    mails db' = mails db -> mails_seq db' = mails_seq db ->
    Written db db'
| WroteContact row :
    contacts db' = <[contacts_seq db + 1 := row]> (contacts db) ->
    contacts_seq db' = contacts_seq db + 1 ->
    registrations db' = registrations db ->
    registrations_seq db' = registrations_seq db ->
    scores db' = scores db -> scores_seq db' = scores_seq db ->
    mails db' = mails db -> mails_seq db' = mails_seq db ->
    Written db db'
| WroteScore row :
    scores db' = <[scores_seq db + 1 := row]> (scores db) ->
    scores_seq db' = scores_seq db + 1 ->
    registrations db' = registrations db ->
    registrations_seq db' = registrations_seq db ->
    contacts db' = contacts db -> contacts_seq db' = contacts_seq db ->
    mails db' = mails db -> mails_seq db' = mails_seq db ->
    Written db db'
| WroteMail row :
    mails db' = <[mails_seq db + 1 := row]> (mails db) ->
    mails_seq db' = mails_seq db + 1 ->
    registrations db' = registrations db ->
    registrations_seq db' = registrations_seq db ->
    contacts db' = contacts db -> contacts_seq db' = contacts_seq db ->
    scores db' = scores db -> scores_seq db' = scores_seq db ->
    Written db db'.

(** The name of the table a route writes to. *)
Definition tableOf (route : Route) : string :=
  match route with
  | RegisterRoute => "registrations"
  | ContactRoute => "contacts"
  | ScoreRoute => "scores"
  | SendMailRoute => "mails"
  end.

(** The last key the route's table has handed out. *)
Definition lastKey (route : Route) (db : Db) : Z :=
  match route with
  | RegisterRoute => registrations_seq db
  | ContactRoute => contacts_seq db
  | ScoreRoute => scores_seq db
  | SendMailRoute => mails_seq db
  end.

(** ** The form handlers of the client script ([src/script.js]) *)

(** What [fetch] resolves with, as the handlers read it: the status, its
    text, and the body parsed as a JSON object ([None] when [resp.json()]
    rejects). *)
Record HttpReply := {
  reply_status : Z;
  reply_statusText : jsstring;
  reply_json : option (gmap string JsValue)
}.

(** [fetch] rejects (a network error) or resolves with a reply. *)
Inductive Fetched :=
| FetchRejected
| FetchResolved (resp : HttpReply).

(** What the user is shown, and whether the form was reset. *)
Record Feedback := {
  shown : jsstring;
  formReset : bool
}.

(** The body a handler posts: [formData.forEach((v, k) => body[k] = v)],
    every field a string. *)
Definition bodyOf (formData : gmap string jsstring) : gmap string JsValue :=
  JStr <$> formData.

(** [resp.ok]. *)
Definition replyOk (resp : HttpReply) : bool :=
  (200 <=? reply_status resp) && (reply_status resp <=? 299).

Section Forms.

(** [String(v)], by which [+] turns a value into text. *)
Variable toString : JsValue -> jsstring.

(** [json.message || resp.statusText], as text. *)
Definition failureText (json : gmap string JsValue) (resp : HttpReply) : jsstring :=
  if truthy (get json "message") then toString (get json "message")
  else reply_statusText resp.

(** The submit handler of the registration form, from the reply on. *)
Definition registrationFeedback (f : Fetched) : Feedback :=
  match f with
  | FetchResolved resp =>
      match reply_json resp with
      | Some json =>
          if replyOk resp && truthy (get json "success") then
            {| shown := lit "Registration submitted " ++ [8212%N] ++ lit " thank you!";
               formReset := true |}
          else
            {| shown := lit "Submission failed: " ++ failureText json resp;
               formReset := false |}
      | None =>
          {| shown := lit "Network error while submitting."; formReset := false |}
      end
  | FetchRejected =>
      {| shown := lit "Network error while submitting."; formReset := false |}
  end.

(** The submit handler of the contact form, from the reply on. *)
Definition contactFeedback (f : Fetched) : Feedback :=
  match f with
  | FetchResolved resp =>
      match reply_json resp with
      | Some json =>
          if replyOk resp && truthy (get json "success") then
            {| shown := lit "Message sent " ++ [8212%N] ++ lit " thank you!";
               formReset := true |}
          else
            {| shown := lit "Failed to send message: " ++ failureText json resp;
               formReset := false |}
      | None =>
          {| shown := lit "Network error while sending message.";
             formReset := false |}
      end
  | FetchRejected =>
      {| shown := lit "Network error while sending message."; formReset := false |}
  end.

End Forms.

(** What the client receives for a response of the server: [reason] is
    the text the HTTP stack gives a status. *)
Definition deliver (reason : Z -> jsstring) (r : Response) : Fetched :=
  FetchResolved {| reply_status := status r;
                   reply_statusText := reason (status r);
                   reply_json := match body r with
                                 | Json o => Some o
                                 | Text _ => None
                                 end |}.

(** A status text for the examples. *)
Definition reasonPhrase (code : Z) : jsstring :=
  if code =? 200 then lit "OK"
  else if code =? 400 then lit "Bad Request"
  else if code =? 500 then lit "Internal Server Error"
  else [].

(* ================================================================== *)
(** * Properties *)

(** ** Strings and numbers *)

Example parseInt_3 : parseInt (lit "3") = 3%float.
Proof. reflexivity. Qed.
Example parseInt_m12 : parseInt (lit " -12px") = (-12)%float.
Proof. reflexivity. Qed.
Example parseInt_hex : parseInt (lit "0x1A") = 26%float.
Proof. reflexivity. Qed.
Example show_10 : showInt 10 = lit "10".
Proof. reflexivity. Qed.
Example trim_ex : trim (lit "  a b ") = lit "a b".
Proof. reflexivity. Qed.
Example split_ex : split 58 (lit "a:b:c") = [lit "a"; lit "b"; lit "c"].
Proof. reflexivity. Qed.

Example isValidEmail_plain : isValidEmail (lit "ann@example.org") = true.
Proof. vm_compute. reflexivity. Qed.
Example isValidEmail_no_dot : isValidEmail (lit "ann@example") = false.
Proof. vm_compute. reflexivity. Qed.
Example isValidEmail_space : isValidEmail (lit "ann smith@example.org") = false.
Proof. vm_compute. reflexivity. Qed.
Example isValidEmail_two_ats : isValidEmail (lit "a@b@c.d") = false.
Proof. vm_compute. reflexivity. Qed.

Lemma orElse_nil (a : jsstring) : orElse a [] = a.
Proof. unfold orElse. case_bool_decide; congruence. Qed.

Lemma replaceAll_app c by_ (s t : jsstring) :
  replaceAll c by_ (s ++ t) = replaceAll c by_ s ++ replaceAll c by_ t.
Proof.
  induction s as [|x s IH]; simpl; [done|].
  by rewrite IH, app_assoc.
Qed.

(** ** Sanitisation *)

Lemma sanitizeHtml_cons c (s : jsstring) :
  sanitizeHtml (c :: s) = escapeUnit c ++ sanitizeHtml s.
Proof.
  unfold sanitizeHtml, escapeUnit.
  change (replaceAll 38 (lit "&amp;") (c :: s))
    with ((if (c =? 38)%N then lit "&amp;" else [c]) ++ replaceAll 38 (lit "&amp;") s).
  rewrite !replaceAll_app.
  f_equal.
  destruct (c =? 38)%N eqn:E38; [reflexivity|].
  simpl. destruct (c =? 60)%N eqn:E60; [reflexivity|].
  simpl. destruct (c =? 62)%N eqn:E62; [reflexivity|].
  simpl. destruct (c =? 34)%N eqn:E34; [reflexivity|].
  simpl. destruct (c =? 39)%N eqn:E39; reflexivity.
Qed.

Lemma sanitizeHtml_escapes (s : jsstring) :
  sanitizeHtml s = concat (map escapeUnit s).
Proof.
  induction s as [|c s IH]; [reflexivity|].
  rewrite sanitizeHtml_cons, IH. reflexivity.
Qed.

(** ** Validation *)

Lemma validateStringField_ok s fieldName lo hi :
  lo <= strlen (trim s) <= hi ->
  validateStringField (JStr s) fieldName lo hi = FieldValid (trim s).
Proof.
  intros [Hlo Hhi]. unfold validateStringField.
  destruct (Z.ltb_spec (strlen (trim s)) lo); [lia|].
  destruct (Z.gtb_spec (strlen (trim s)) hi); [lia|reflexivity].
Qed.

Lemma validateStringField_short s fieldName lo hi :
  strlen (trim s) < lo ->
  validateStringField (JStr s) fieldName lo hi =
    FieldInvalid (fieldName ++ lit " is required (minimum "
                    ++ showInt lo ++ lit " character).").
Proof.
  intros Hlo. unfold validateStringField.
  destruct (Z.ltb_spec (strlen (trim s)) lo); [reflexivity|lia].
Qed.

(** Errors are only ever appended. *)
Lemma pushInvalid_prefix v errors : errors `prefix_of` pushInvalid v errors.
Proof. destruct v; simpl; [done|]. by apply prefix_app_r. Qed.

Lemma checkEmail_prefix email errors : errors `prefix_of` checkEmail email errors.
Proof.
  unfold checkEmail.
  destruct email; try (by apply prefix_app_r).
  repeat case_match; try done; by apply prefix_app_r.
Qed.

Lemma checkEmail_ok e errors :
  isValidEmail (trim e) = true -> strlen (trim e) <= 255 ->
  checkEmail (JStr e) errors = errors.
Proof.
  intros Hv Hlen. unfold checkEmail.
  assert (He : e <> []) by (intros ->; discriminate Hv).
  simpl truthy. rewrite bool_decide_eq_false_2 by done. simpl.
  rewrite Hv. simpl.
  destruct (Z.gtb_spec (strlen (trim e)) 255); [lia|reflexivity].
Qed.

Lemma prefix_cons_inv_hd {A} (x : A) (l k : list A) :
  (x :: l) `prefix_of` k -> exists r, k = x :: r.
Proof. intros [r ->]. eauto. Qed.

Lemma nonempty_length_pos {A} (x : A) (r : list A) :
  (0 <? Z.of_nat (length (x :: r))) = true.
Proof. apply Z.ltb_lt. simpl length. lia. Qed.

Lemma validateRegistration_name_empty (data : gmap string JsValue) s :
  data !! "name" = Some (JStr s) -> trim s = [] ->
  exists rest, validateRegistration data = Normal (Invalid (nameRequired :: rest)).
Proof.
  intros Hname Htrim. unfold validateRegistration.
  assert (Hv : validateStringField (get data "name") (lit "Name") 1 100
               = FieldInvalid nameRequired).
  { unfold get. rewrite Hname. simpl default.
    rewrite validateStringField_short by (rewrite Htrim; unfold strlen; simpl; lia).
    reflexivity. }
  rewrite Hv. simpl pushInvalid.
  match goal with
  | |- context [if 0 <? Z.of_nat (length ?E) then _ else _] =>
      assert (HE : exists r, E = nameRequired :: r)
  end.
  { apply prefix_cons_inv_hd with (l := []).
    etransitivity; [apply checkEmail_prefix|].
    etransitivity; [apply pushInvalid_prefix|].
    case_match; [by apply prefix_app_r|done]. }
  destruct HE as [r ->]. rewrite nonempty_length_pos. eauto.
Qed.

Lemma snoc_length_pos {A} (l : list A) (x : A) :
  (0 <? Z.of_nat (length (l ++ [x]))) = true.
Proof. apply Z.ltb_lt. rewrite length_app. simpl. lia. Qed.

Lemma validateContact_message_short (data : gmap string JsValue) m :
  data !! "message" = Some (JStr m) -> strlen (trim m) < 10 ->
  exists errors, validateContact data = Normal (Invalid errors)
                 /\ messageRequired ∈ errors.
Proof.
  intros Hm Hlen. unfold validateContact.
  assert (Hv : validateStringField (get data "message") (lit "Message") 10 5000
               = FieldInvalid messageRequired).
  { unfold get. rewrite Hm. simpl default.
    by rewrite validateStringField_short. }
  rewrite Hv. simpl pushInvalid. rewrite snoc_length_pos.
  eexists. split; [reflexivity|]. apply elem_of_app. right. by left.
Qed.

Lemma validateContact_valid (data : gmap string JsValue) n e m :
  data !! "name" = Some (JStr n) ->
  data !! "email" = Some (JStr e) ->
  data !! "message" = Some (JStr m) ->
  1 <= strlen (trim n) <= 100 ->
  isValidEmail (trim e) = true -> strlen (trim e) <= 255 ->
  10 <= strlen (trim m) <= 5000 ->
  validateContact data =
    Normal (Valid {| con_name := trim n; con_email := trim e;
                     con_message := trim m |}).
Proof.
  intros Hn He Hm Hnl Hev Hel Hml. unfold validateContact, get.
  rewrite Hn, He, Hm. simpl default.
  rewrite !validateStringField_ok by done.
  cbn [pushInvalid]. rewrite checkEmail_ok by done.
  reflexivity.
Qed.

(** ** The mail handler *)

Lemma insertMail_ok w db record :
  dbError w = None ->
  m_sentAt record = None -> m_error record = None ->
  exists db1,
    insertMail w db record = Normal (db1, mails_seq db + 1)
    /\ mails db1 = <[mails_seq db + 1 := record]> (mails db)
    /\ journal db1 = journal db ++ [InsertInto "mails" (mails_seq db + 1)].
Proof.
  intros Hdb Hs He. unfold insertMail. rewrite Hdb, Hs, He.
  eexists. split; [reflexivity|]. simpl. split; [|reflexivity].
  destruct record; simpl in *; congruence.
Qed.

Lemma send_mail_valid env w db (reqBody : gmap string JsValue) data :
  validateMail reqBody = Normal (Valid data) ->
  dbError w = None ->
  let id := mails_seq db + 1 in
  exists db1,
    insertMail w db (pendingRecord data) = Normal (db1, id)
    /\ mails db1 = <[id := pendingRecord data]> (mails db)
    /\ journal db1 = journal db ++ [InsertInto "mails" id]
    /\ send_mail env w db reqBody =
       match envSet env "SMTP_HOST" with
       | Some smtpHost =>
           match sendMail w (createTransport env smtpHost) (smtpMessage env data) with
           | None =>
               (updateMail db1 id (lit "sent") (setSent (lit "sent") (now w)),
                mailReply 200 true id true "Email sent successfully.")
           | Some sendErr =>
               (updateMail db1 id (lit "failed")
                  (setFailed (lit "failed") (errorText sendErr)),
                mailReply 500 false id false "Mail send failed, logged.")
           end
       | None =>
           (updateMail db1 id (lit "mocked") (setStatus (lit "mocked")),
            mailReply 200 true id false "No SMTP configured; mail recorded.")
       end.
Proof.
  intros Hv Hdb id.
  destruct (insertMail_ok w db (pendingRecord data) Hdb eq_refl eq_refl)
    as (db1 & Hins & Hm & Hj).
  exists db1. repeat split; try done.
  unfold send_mail. rewrite Hv.
  change (insertMail w db _) with (insertMail w db (pendingRecord data)).
  rewrite Hins. reflexivity.
Qed.

(** A valid request whose INSERT is accepted: the inserted row is pending,
    one UPDATE follows, and the row keeps its recipients, subject and body. *)
Lemma send_mail_transition env w db (reqBody : gmap string JsValue) data :
  validateMail reqBody = Normal (Valid data) ->
  dbError w = None ->
  let id := mails_seq db + 1 in
  let db' := fst (send_mail env w db reqBody) in
  exists db1 st row,
    insertMail w db (pendingRecord data) = Normal (db1, id)
    /\ mails db1 !! id = Some (pendingRecord data)
    /\ st ∈ finalStatuses
    /\ mails db' !! id = Some row
    /\ m_status row = st
    /\ m_recipients row = join (lit ",") (mail_to data)
    /\ m_subject row = sanitizeHtml (mail_subject data)
    /\ m_body row = sanitizeHtml (mail_body data)
    /\ journal db' = journal db ++ [InsertInto "mails" id; UpdateMail id st].
Proof.
  intros Hv Hdb id db'.
  destruct (send_mail_valid env w db reqBody data Hv Hdb)
    as (db1 & Hins & Hm & Hj & Hrun).
  fold id in Hins, Hm, Hj, Hrun.
  assert (Hrow : mails db1 !! id = Some (pendingRecord data))
    by (rewrite Hm; apply lookup_insert_eq).
  subst db'. rewrite Hrun.
  destruct (envSet env "SMTP_HOST") as [host|];
    [destruct (sendMail w _ _) as [err|]|].
  - exists db1, (lit "failed"), (setFailed (lit "failed") (errorText err) (pendingRecord data)).
    simpl. rewrite lookup_alter_eq, Hrow, Hj, <- app_assoc.
    repeat split; try done. unfold finalStatuses. set_solver.
  - exists db1, (lit "sent"), (setSent (lit "sent") (now w) (pendingRecord data)).
    simpl. rewrite lookup_alter_eq, Hrow, Hj, <- app_assoc.
    repeat split; try done. unfold finalStatuses. set_solver.
  - exists db1, (lit "mocked"), (setStatus (lit "mocked") (pendingRecord data)).
    simpl. rewrite lookup_alter_eq, Hrow, Hj, <- app_assoc.
    repeat split; try done. unfold finalStatuses. set_solver.
Qed.


Example validateMail_mailRequest :
  validateMail mailRequest = Normal (Valid mailRequestData).
Proof. vm_compute. reflexivity. Qed.

(** C5. A valid mail request made while SMTP_HOST is not set, when the
    storage engine accepts the INSERT: the record is stored, the one UPDATE
    that follows sets its status to 'mocked', and the response is HTTP 200
    with success true and sent false. *)
Theorem C5_mail_without_smtp_host_is_mocked env w db
    (reqBody : gmap string JsValue) data :
  validateMail reqBody = Normal (Valid data) ->
  env !! "SMTP_HOST" = None ->
  dbError w = None ->
  let id := mails_seq db + 1 in
  snd (send_mail env w db reqBody)
    = json 200 [("success", JBool true); ("id", JNum (number_of_Z id));
                ("sent", JBool false);
                ("message", JStr (lit "No SMTP configured; mail recorded."))]
  /\ mails (fst (send_mail env w db reqBody)) !! id
     = Some {| m_recipients := join (lit ",") (mail_to data);
               m_subject := sanitizeHtml (mail_subject data);
               m_body := sanitizeHtml (mail_body data);
               m_status := lit "mocked";
               m_sentAt := None;
               m_error := None |}
  /\ journal (fst (send_mail env w db reqBody))
     = journal db ++ [InsertInto "mails" id; UpdateMail id (lit "mocked")].
Proof.
  intros Hv Henv Hdb id.
  destruct (send_mail_valid env w db reqBody data Hv Hdb)
    as (db1 & _ & Hm & Hj & Hrun).
  fold id in Hm, Hj, Hrun.
  unfold envSet in Hrun. rewrite Henv in Hrun. rewrite Hrun. simpl.
  split; [reflexivity|]. split.
  - rewrite lookup_alter_eq, Hm, lookup_insert_eq. reflexivity.
  - rewrite Hj, <- app_assoc. reflexivity.
Qed.

Lemma C5_witness :
  snd (send_mail ∅ quietWorld emptyDb mailRequest)
    = json 200 [("success", JBool true); ("id", JNum (number_of_Z 1));
                ("sent", JBool false);
                ("message", JStr (lit "No SMTP configured; mail recorded."))]
  /\ mails (fst (send_mail ∅ quietWorld emptyDb mailRequest)) !! 1
     = Some {| m_recipients := lit "a@b.co";
               m_subject := sanitizeHtml (lit "Hi <all>");
               m_body := sanitizeHtml (lit "Tom & Jerry");
               m_status := lit "mocked";
               m_sentAt := None;
               m_error := None |}
  /\ journal (fst (send_mail ∅ quietWorld emptyDb mailRequest))
     = [InsertInto "mails" 1; UpdateMail 1 (lit "mocked")].
Proof.
  apply (C5_mail_without_smtp_host_is_mocked ∅ quietWorld emptyDb
           mailRequest mailRequestData).
  - vm_compute. reflexivity.
  - reflexivity.
  - reflexivity.
Defined.



Lemma validateMail_empty_to (data : gmap string JsValue) subject body_ :
  data !! "to" = Some (JArr []) ->
  data !! "subject" = Some (JStr subject) ->
  data !! "body" = Some (JStr body_) ->
  1 <= strlen (trim subject) <= 255 ->
  1 <= strlen (trim body_) <= 10000 ->
  validateMail data =
    Normal (Valid {| mail_to := []; mail_subject := trim subject;
                     mail_body := trim body_ |}).
Proof.
  intros Hto Hs Hb Hsl Hbl. unfold validateMail, get.
  rewrite Hto, Hs, Hb. simpl default.
  rewrite !validateStringField_ok by done.
  reflexivity.
Qed.

(** C10. A mail request whose 'to' field is the empty array, with a valid
    subject and body: validateMail reports it valid with no recipient (the
    'Recipient email is required.' branch is not taken and the loop checks
    nothing), and when the storage engine accepts the INSERT the handler
    stores the record with the empty string as its recipients. *)
Theorem C10_empty_recipient_array_accepted (data : gmap string JsValue)
    subject body_ :
  data !! "to" = Some (JArr []) ->
  data !! "subject" = Some (JStr subject) ->
  data !! "body" = Some (JStr body_) ->
  1 <= strlen (trim subject) <= 255 ->
  1 <= strlen (trim body_) <= 10000 ->
  truthy (JArr []) = true
  /\ checkRecipients [] [] = Normal []
  /\ validateMail data =
       Normal (Valid {| mail_to := []; mail_subject := trim subject;
                        mail_body := trim body_ |})
  /\ forall env w db,
       dbError w = None ->
       exists row,
         mails (fst (send_mail env w db data)) !! (mails_seq db + 1) = Some row
         /\ m_recipients row = []
         /\ m_subject row = sanitizeHtml (trim subject)
         /\ m_body row = sanitizeHtml (trim body_)
         /\ In (InsertInto "mails" (mails_seq db + 1))
              (journal (fst (send_mail env w db data))).
Proof.
  intros Hto Hs Hb Hsl Hbl.
  pose proof (validateMail_empty_to data subject body_ Hto Hs Hb Hsl Hbl) as Hv.
  repeat split; try done.
  intros env w db Hdb.
  destruct (send_mail_transition env w db data _ Hv Hdb)
    as (db1 & st & row & _ & _ & _ & Hrow & _ & Hr & Hsub & Hbody & Hj).
  exists row. repeat split; try done.
  rewrite Hj. apply in_or_app. right. by left.
Qed.

Lemma C10_witness :
  validateMail emptyToRequest =
    Normal (Valid {| mail_to := []; mail_subject := lit "Hello";
                     mail_body := lit "Is anyone there?" |})
  /\ exists row,
       mails (fst (send_mail ∅ quietWorld emptyDb emptyToRequest)) !! 1 = Some row
       /\ m_recipients row = [].
Proof.
  destruct (C10_empty_recipient_array_accepted emptyToRequest
              (lit "Hello") (lit "Is anyone there?"))
    as (_ & _ & Hv & Hrun).
  - reflexivity.
  - reflexivity.
  - reflexivity.
  - vm_compute. split; discriminate.
  - vm_compute. split; discriminate.
  - split; [exact Hv|].
    destruct (Hrun ∅ quietWorld emptyDb eq_refl) as (row & Hrow & Hr & _).
    exists row. split; [exact Hrow|exact Hr].
Defined.

(** C8. A registration whose name is the empty string, or trims to it:
    the handler responds HTTP 400 with success false and an error list
    that holds a message beginning 'Name is required'; nothing is stored. *)
Theorem C8_registration_empty_name_rejected w db
    (reqBody : gmap string JsValue) name :
  reqBody !! "name" = Some (JStr name) ->
  trim name = [] ->
  exists e errors,
    register w db reqBody
      = (db, json 400 [("success", JBool false); ("errors", errorList errors)])
    /\ e ∈ errors
    /\ startsWith (lit "Name is required") e = true.
Proof.
  intros Hname Htrim.
  destruct (validateRegistration_name_empty reqBody name Hname Htrim) as [rest Hv].
  exists nameRequired, (nameRequired :: rest).
  unfold register. rewrite Hv.
  split; [reflexivity|]. split; [by left|reflexivity].
Qed.

Lemma C8_witness :
  exists e errors,
    register quietWorld emptyDb
        (obj [("name", JStr (lit "   ")); ("email", JStr (lit "a@b.co"));
              ("contact", JStr (lit "555"))])
      = (emptyDb, json 400 [("success", JBool false); ("errors", errorList errors)])
    /\ e ∈ errors
    /\ startsWith (lit "Name is required") e = true.
Proof.
  apply (C8_registration_empty_name_rejected quietWorld emptyDb _ (lit "   ")).
  - reflexivity.
  - reflexivity.
Defined.

(** C3. A contact submission whose trimmed message has 9 code units fails
    validation and gets HTTP 400.  One whose trimmed message has between 10
    and 5000, with a valid name and email, passes validation with its fields
    trimmed; the handler then stores the entry and, the storage engine
    accepting the INSERT, responds with success true and the new id. *)
Theorem C3_contact_message_length_bounds w db (reqBody : gmap string JsValue)
    message :
  reqBody !! "message" = Some (JStr message) ->
  (length (trim message) = 9%nat ->
   exists errors,
     contact w db reqBody
       = (db, json 400 [("success", JBool false); ("errors", errorList errors)])
     /\ messageRequired ∈ errors)
  /\ (forall name email,
        reqBody !! "name" = Some (JStr name) ->
        reqBody !! "email" = Some (JStr email) ->
        1 <= strlen (trim name) <= 100 ->
        isValidEmail (trim email) = true -> strlen (trim email) <= 255 ->
        10 <= strlen (trim message) <= 5000 ->
        validateContact reqBody =
          Normal (Valid {| con_name := trim name; con_email := trim email;
                           con_message := trim message |})
        /\ (dbError w = None ->
            let id := contacts_seq db + 1 in
            snd (contact w db reqBody)
              = json 200 [("success", JBool true); ("id", JNum (number_of_Z id));
                          ("message", JStr (lit "Contact form submitted successfully."))]
            /\ contacts (fst (contact w db reqBody)) !! id
               = Some {| c_name := sanitizeHtml (trim name);
                         c_email := trim email;
                         c_message := sanitizeHtml (trim message);
                         c_receivedAt := now w |})).
Proof.
  intros Hm. split.
  - intros Hlen.
    destruct (validateContact_message_short reqBody message Hm) as (errors & Hv & Hin).
    { unfold strlen. rewrite Hlen. lia. }
    exists errors. unfold contact. rewrite Hv. done.
  - intros name email Hn He Hnl Hev Hel Hml.
    pose proof (validateContact_valid reqBody name email message
                  Hn He Hm Hnl Hev Hel Hml) as Hv.
    split; [exact Hv|].
    intros Hdb id. unfold contact, insertContact. rewrite Hv, Hdb. simpl.
    split; [reflexivity|]. apply lookup_insert_eq.
Qed.

Lemma C3_witness :
  (exists errors,
     contact quietWorld emptyDb (contactRequest (lit " 123456789 "))
       = (emptyDb, json 400 [("success", JBool false); ("errors", errorList errors)])
     /\ messageRequired ∈ errors)
  /\ snd (contact quietWorld emptyDb (contactRequest (lit " 1234567890 ")))
     = json 200 [("success", JBool true); ("id", JNum (number_of_Z 1));
                 ("message", JStr (lit "Contact form submitted successfully."))].
Proof.
  split.
  - apply (proj1 (C3_contact_message_length_bounds quietWorld emptyDb
                    (contactRequest (lit " 123456789 ")) (lit " 123456789 ")
                    eq_refl)).
    reflexivity.
  - apply (proj2 (C3_contact_message_length_bounds quietWorld emptyDb
                    (contactRequest (lit " 1234567890 ")) (lit " 1234567890 ")
                    eq_refl) (lit "Ada") (lit "ada@example.org")).
    + reflexivity.
    + reflexivity.
    + vm_compute. split; discriminate.
    + vm_compute. reflexivity.
    + vm_compute. discriminate.
    + vm_compute. split; discriminate.
    + reflexivity.
Defined.

(** ** Sanitisation before storage *)

(** C4. sanitizeHtml rewrites a string unit by unit: each of the five
    characters ampersand, less-than, greater-than, double quote and
    apostrophe becomes its entity and every other unit is kept.
    The registration handler stores the sanitised name and address, the
    contact handler the sanitised name and message, the mail handler the
    sanitised subject and body. *)
Theorem C4_free_text_sanitized_before_storage :
  (forall s, sanitizeHtml s = concat (map escapeUnit s))
  /\ (forall w db (reqBody : gmap string JsValue) data,
        validateRegistration reqBody = Normal (Valid data) ->
        dbError w = None ->
        exists row,
          registrations (fst (register w db reqBody)) !! (registrations_seq db + 1)
            = Some row
          /\ r_name row = sanitizeHtml (reg_name data)
          /\ r_address row = sanitizeHtml (reg_address data))
  /\ (forall w db (reqBody : gmap string JsValue) data,
        validateContact reqBody = Normal (Valid data) ->
        dbError w = None ->
        exists row,
          contacts (fst (contact w db reqBody)) !! (contacts_seq db + 1) = Some row
          /\ c_name row = sanitizeHtml (con_name data)
          /\ c_message row = sanitizeHtml (con_message data))
  /\ (forall env w db (reqBody : gmap string JsValue) data,
        validateMail reqBody = Normal (Valid data) ->
        dbError w = None ->
        exists row,
          mails (fst (send_mail env w db reqBody)) !! (mails_seq db + 1) = Some row
          /\ m_subject row = sanitizeHtml (mail_subject data)
          /\ m_body row = sanitizeHtml (mail_body data)).
Proof.
  split; [exact sanitizeHtml_escapes|]. split; [|split].
  - intros w db reqBody data Hv Hdb.
    unfold register, insertRegistration. rewrite Hv, Hdb. simpl.
    rewrite lookup_insert_eq. eexists. split; [reflexivity|].
    simpl. rewrite orElse_nil. done.
  - intros w db reqBody data Hv Hdb.
    unfold contact, insertContact. rewrite Hv, Hdb. simpl.
    rewrite lookup_insert_eq. eexists. split; [reflexivity|]. done.
  - intros env w db reqBody data Hv Hdb.
    destruct (send_mail_transition env w db reqBody data Hv Hdb)
      as (db1 & st & row & _ & _ & _ & Hrow & _ & _ & Hsub & Hbody & _).
    exists row. done.
Qed.

Lemma C4_witness :
  sanitizeHtml (lit "<b>Ann</b>") = lit "&lt;b&gt;Ann&lt;/b&gt;"
  /\ exists row,
       registrations (fst (register quietWorld emptyDb registrationRequest)) !! 1
         = Some row
       /\ r_name row = lit "&lt;b&gt;Ann&lt;/b&gt;"
       /\ r_address row = lit "1 O&#x27;Neil &amp; Sons".
Proof.
  destruct C4_free_text_sanitized_before_storage as (Hs & Hreg & _ & _).
  split.
  - rewrite Hs. reflexivity.
  - destruct (Hreg quietWorld emptyDb registrationRequest
                {| reg_name := lit "<b>Ann</b>"; reg_email := lit "ann@example.org";
                   reg_address := lit "1 O'Neil & Sons";
                   reg_contact := lit "555-0100" |})
      as (row & Hrow & Hn & Ha).
    + vm_compute. reflexivity.
    + reflexivity.
    + exists row. split; [exact Hrow|]. split; [rewrite Hn|rewrite Ha]; reflexivity.
Defined.

(** The score handler stores the optional details as validated, unescaped. *)
Example score_details_stored_unescaped :
  scores (fst (score quietWorld emptyDb
                 (obj [("score", JNum 3%float); ("details", JStr (lit "<i>x</i>"))])))
    !! 1
  = Some {| s_score := 3%float; s_details := Some (lit "<i>x</i>");
            s_receivedAt := now quietWorld |}.
Proof. vm_compute. reflexivity. Qed.

(** ** The shape of the JSON responses *)

Ltac lookup_obj :=
  unfold obj; cbn [list_to_map foldr uncurry];
  repeat (rewrite lookup_insert_eq || (rewrite lookup_insert_ne by done));
  try apply lookup_empty; try reflexivity.

Ltac field_obj :=
  unfold field, json; cbn [body status]; lookup_obj.

Lemma json_invalidShape errors :
  exists r, json 400 [("success", JBool false); ("errors", errorList errors)]
              = Responded r /\ invalidShape errors r.
Proof.
  eexists. split; [reflexivity|]. unfold invalidShape.
  split_and!; [reflexivity|field_obj..].
Qed.

Lemma json_successShape id message :
  exists r, json 200 [("success", JBool true); ("id", JNum (number_of_Z id));
                      ("message", JStr (lit message))] = Responded r
            /\ successShape id message r.
Proof.
  eexists. split; [reflexivity|]. unfold successShape.
  split_and!; [reflexivity|field_obj..].
Qed.

Lemma json_failureShape message :
  exists r, json 500 [("success", JBool false); ("message", JStr (lit message))]
              = Responded r
            /\ failureShape message r.
Proof.
  eexists. split; [reflexivity|]. unfold failureShape.
  split_and!; [reflexivity|field_obj..].
Qed.

Lemma mailReply_success id sent message :
  exists r, mailReply 200 true id sent message = Responded r
            /\ field r "id" = Some (JNum (number_of_Z id))
            /\ successShape id message r
            /\ field r "sent" = Some (JBool sent).
Proof.
  eexists. split; [reflexivity|]. unfold successShape.
  split_and!; try reflexivity; field_obj.
Qed.

Lemma mailReply_failure id sent message :
  exists r, mailReply 500 false id sent message = Responded r
            /\ field r "id" = Some (JNum (number_of_Z id))
            /\ failureShape message r
            /\ field r "sent" = Some (JBool sent).
Proof.
  eexists. split; [reflexivity|]. unfold failureShape.
  split_and!; try reflexivity; field_obj.
Qed.

(** C9 as stated fails: a registration with no fields gets HTTP 400 whose
    JSON body has success false and the error list, and no message field. *)
Lemma C9_counterexample :
  exists r o,
    snd (register quietWorld emptyDb ∅) = Responded r
    /\ status r = 400
    /\ body r = Json o
    /\ o !! "success" = Some (JBool false)
    /\ o !! "errors"
       = Some (errorList [lit "Name must be a string."; lit "Email is required.";
                          lit "Contact must be a string."])
    /\ o !! "message" = None.
Proof.
  eexists. eexists. split; [vm_compute; reflexivity|].
  split; [reflexivity|]. split; [reflexivity|].
  repeat split; vm_compute; reflexivity.
Qed.

(** C9, amended. Each of the four POST handlers answers a request that
    validation rejects with status 400 and a JSON body holding success false
    and the list of validation errors, with no message field, and stores
    nothing.  It answers a request that validation accepts, when the
    storage engine accepts the INSERT, with status 200 and a body holding
    success true, the id under which the new row is stored (the next key of
    the handler's table) and the handler's message; when the storage engine
    refuses the INSERT, with status 500 and a body holding success false and
    the handler's failure message, nothing being stored.  The mail handler,
    once the record is inserted, answers 500 with success false, the id and
    its message exactly when SMTP is configured and the transport fails,
    and 200 otherwise. *)
Theorem C9_handler_response_shapes :
  handlerContract validateRegistration register registrations registrations_seq
    "Registration successful." "Could not save registration."
  /\ handlerContract validateContact contact contacts contacts_seq
       "Contact form submitted successfully." "Could not save contact."
  /\ handlerContract validateScore score scores scores_seq
       "Score recorded successfully." "Could not save score."
  /\ forall env, mailContract env.
Proof.
  unfold handlerContract, mailContract. split; [|split; [|split]].
  - intros w db reqBody. unfold register, insertRegistration.
    destruct (validateRegistration reqBody) as [[data|errors]|e]; [| |exact I].
    + destruct (dbError w); cbn [fst snd].
      * split; [reflexivity|]. apply json_failureShape.
      * split; [eexists; reflexivity|]. apply json_successShape.
    + split; [reflexivity|]. apply json_invalidShape.
  - intros w db reqBody. unfold contact, insertContact.
    destruct (validateContact reqBody) as [[data|errors]|e]; [| |exact I].
    + destruct (dbError w); cbn [fst snd].
      * split; [reflexivity|]. apply json_failureShape.
      * split; [eexists; reflexivity|]. apply json_successShape.
    + split; [reflexivity|]. apply json_invalidShape.
  - intros w db reqBody. unfold score, insertScore.
    destruct (validateScore reqBody) as [[data|errors]|e]; [| |exact I].
    + destruct (dbError w); cbn [fst snd].
      * split; [reflexivity|]. apply json_failureShape.
      * split; [eexists; reflexivity|]. apply json_successShape.
    + split; [reflexivity|]. apply json_invalidShape.
  - intros env w db reqBody.
    destruct (validateMail reqBody) as [[data|errors]|e] eqn:Hv; [| |exact I].
    + destruct (dbError w) as [err|] eqn:Hdb.
      * unfold send_mail, insertMail. rewrite Hv, Hdb. cbn [fst snd].
        split; [reflexivity|]. apply json_failureShape.
      * destruct (send_mail_valid env w db reqBody data Hv Hdb)
          as (db1 & _ & Hm & _ & ->).
        destruct (envSet env "SMTP_HOST") as [host|];
          [destruct (sendMail w _ _) as [sendErr|]|]; cbn [fst snd updateMail mails];
          (split; [rewrite Hm, alter_insert_eq; eexists; reflexivity|]).
        -- destruct (mailReply_failure (mails_seq db + 1) false
                       "Mail send failed, logged.") as (r & Hr & Hid & Hf & Hs).
           exists r. done.
        -- destruct (mailReply_success (mails_seq db + 1) true
                       "Email sent successfully.") as (r & Hr & Hid & Hf & Hs).
           exists r. done.
        -- destruct (mailReply_success (mails_seq db + 1) false
                       "No SMTP configured; mail recorded.") as (r & Hr & Hid & Hf & Hs).
           exists r. done.
    + unfold send_mail. rewrite Hv. cbn [fst snd].
      split; [reflexivity|]. apply json_invalidShape.
Qed.

(** ** The admin gate *)

Section AdminGate.

(** [Buffer.from(token, 'base64').toString()]: any decoder. *)
Variable decodeBase64 : jsstring -> jsstring.

Lemma parseBasicAuth_none (reqHeaders : gmap string jsstring) :
  (reqHeaders !! "authorization" = None
   \/ exists h, reqHeaders !! "authorization" = Some h
                /\ startsWith (lit "Basic ") h = false) ->
  parseBasicAuth decodeBase64 reqHeaders = None.
Proof.
  unfold parseBasicAuth. intros [->|(h & -> & Hh)]; [reflexivity|].
  rewrite Hh. simpl. by rewrite orb_true_r.
Qed.

Lemma requireAdmin_next env (reqHeaders : gmap string jsstring) :
  requireAdmin decodeBase64 env reqHeaders = Next
  <-> exists creds,
        parseBasicAuth decodeBase64 reqHeaders = Some creds
        /\ user creds = adminUser env /\ pass creds = adminPass env.
Proof.
  unfold requireAdmin, str_eqb. split.
  - destruct (parseBasicAuth decodeBase64 reqHeaders) as [creds|]; [|discriminate].
    destruct (bool_decide (user creds = adminUser env)) eqn:Hu; [|discriminate].
    destruct (bool_decide (pass creds = adminPass env)) eqn:Hp; [|discriminate].
    intros _. exists creds.
    apply bool_decide_eq_true in Hu. apply bool_decide_eq_true in Hp. done.
  - intros (creds & -> & Hu & Hp).
    rewrite !bool_decide_eq_true_2 by done. reflexivity.
Qed.

Lemma requireAdmin_cases env (reqHeaders : gmap string jsstring) :
  requireAdmin decodeBase64 env reqHeaders = Next
  \/ exists text,
       requireAdmin decodeBase64 env reqHeaders = unauthorized text.
Proof.
  unfold requireAdmin.
  destruct (parseBasicAuth decodeBase64 reqHeaders) as [creds|]; [|eauto].
  destruct (_ && _); eauto.
Qed.

End AdminGate.

Example base64Ascii_admin : base64Ascii (lit "YWRtaW46YWRtaW4xMjM=") = lit "admin:admin123".
Proof. vm_compute. reflexivity. Qed.

Example requireAdmin_default_credentials :
  requireAdmin base64Ascii ∅ (adminHeaders "YWRtaW46YWRtaW4xMjM=") = Next.
Proof. vm_compute. reflexivity. Qed.

Example requireAdmin_wrong_password :
  requireAdmin base64Ascii ∅ (adminHeaders "YWRtaW46Z3Vlc3M=")
    = unauthorized (lit "Invalid credentials").
Proof. vm_compute. reflexivity. Qed.

(** C7. A request to the admin endpoint with no Authorization header, or
    with one that does not start with 'Basic ', gets HTTP 401 with the
    WWW-Authenticate header set.  The gate hands over to the handler that
    renders the table dumps exactly when the user and password parsed from
    the header both equal the configured admin credentials; otherwise the
    route answers 401 with that header, whatever the handler would send. *)
Theorem C7_admin_requires_basic_auth decodeBase64 env
    (reqHeaders : gmap string jsstring) :
  ((reqHeaders !! "authorization" = None
    \/ exists h, reqHeaders !! "authorization" = Some h
                 /\ startsWith (lit "Basic ") h = false) ->
   requireAdmin decodeBase64 env reqHeaders
     = Respond {| status := 401;
                  headers := {[ "WWW-Authenticate" := realm ]};
                  body := Text (lit "Authentication required") |})
  /\ (requireAdmin decodeBase64 env reqHeaders = Next
      <-> exists creds,
            parseBasicAuth decodeBase64 reqHeaders = Some creds
            /\ user creds = adminUser env /\ pass creds = adminPass env)
  /\ (requireAdmin decodeBase64 env reqHeaders <> Next ->
      forall handler,
      exists r,
        adminRoute decodeBase64 env reqHeaders handler = Responded r
        /\ status r = 401
        /\ headers r !! "WWW-Authenticate" = Some realm).
Proof.
  split; [|split].
  - intros Hh. unfold requireAdmin.
    by rewrite (parseBasicAuth_none decodeBase64 reqHeaders Hh).
  - apply requireAdmin_next.
  - intros Hne handler. unfold adminRoute.
    destruct (requireAdmin_cases decodeBase64 env reqHeaders) as [Hn|[text ->]];
      [done|].
    eexists. split; [reflexivity|]. split; [reflexivity|].
    simpl. apply lookup_singleton_eq.
Qed.

Lemma C7_witness :
  requireAdmin base64Ascii ∅ ∅
    = Respond {| status := 401;
                 headers := {[ "WWW-Authenticate" := realm ]};
                 body := Text (lit "Authentication required") |}
  /\ exists r,
       adminRoute base64Ascii ∅ (adminHeaders "YWRtaW46Z3Vlc3M=")
           (Responded {| status := 200; headers := ∅; body := Text (lit "dump") |})
         = Responded r
       /\ status r = 401
       /\ headers r !! "WWW-Authenticate" = Some realm.
Proof.
  split.
  - apply (proj1 (C7_admin_requires_basic_auth base64Ascii ∅ ∅)).
    left. reflexivity.
  - apply (proj2 (proj2 (C7_admin_requires_basic_auth base64Ascii ∅
                           (adminHeaders "YWRtaW46Z3Vlc3M=")))).
    vm_compute. discriminate.
Defined.

(** ** The client-side score *)

Lemma parseInt_answer a :
  1 <= a <= 4 -> parseInt (showInt a) = number_of_Z a /\ showInt a <> [].
Proof.
  intros Ha.
  assert (a = 1 \/ a = 2 \/ a = 3 \/ a = 4) as [->|[->|[->| ->]]] by lia;
    (split; [vm_compute; reflexivity|discriminate]).
Qed.

Lemma add_answer t a :
  0 <= t <= 44 -> 1 <= a <= 4 ->
  PrimFloat.add (number_of_Z t) (number_of_Z a) = number_of_Z (t + a).
Proof.
  intros Ht Ha.
  assert (exists n, t = Z.of_nat n /\ (n <= 44)%nat) as (n & -> & Hn)
    by (exists (Z.to_nat t); lia).
  assert (a = 1 \/ a = 2 \/ a = 3 \/ a = 4) as [->|[->|[->| ->]]] by lia;
    do 45 (destruct n as [|n]; [vm_compute; reflexivity|]); lia.
Qed.

Lemma band_of_total t :
  12 <= t <= 48 ->
  exists advice bg fg,
    band (PrimFloat.div (number_of_Z t) (number_of_Z questionsCount))
    = (categoryOfAverage (QArith_base.Qmake t 12), advice, bg, fg).
Proof.
  intros Ht.
  assert (exists n, t = 12 + Z.of_nat n /\ (n <= 36)%nat) as (n & -> & Hn)
    by (exists (Z.to_nat (t - 12)); lia).
  do 37 (destruct n as [|n]; [vm_compute; eauto|]); lia.
Qed.

Lemma sumZ_bounds (answers : list Z) :
  (forall i a, answers !! i = Some a -> 1 <= a <= 4) ->
  Z.of_nat (length answers) <= sumZ answers <= 4 * Z.of_nat (length answers).
Proof.
  induction answers as [|a answers IH]; intros H; simpl; [lia|].
  pose proof (H 0%nat a eq_refl).
  assert (Z.of_nat (length answers) <= sumZ answers <= 4 * Z.of_nat (length answers)).
  { apply IH. intros i b Hb. apply (H (S i) b Hb). }
  unfold sumZ in *. lia.
Qed.

(** The loop, run over answered questions whose values are the integers
    1 to 4: the total is their sum, exactly, and each is counted. *)
Lemma tally_answers (elements : gmap string jsstring) (answers : list Z) k t c :
  (forall i a, answers !! i = Some a ->
     1 <= a <= 4 /\ elements !! questionName (k + i) = Some (showInt a)) ->
  0 <= t -> t + 4 * Z.of_nat (length answers) <= 48 ->
  fold_left (tallyStep elements) (seq k (length answers)) (number_of_Z t, c)
  = (number_of_Z (t + sumZ answers), c + Z.of_nat (length answers)).
Proof.
  revert k t c. induction answers as [|a answers IH]; intros k t c H Ht Hsum.
  - simpl. by rewrite !Z.add_0_r.
  - destruct (H 0%nat a eq_refl) as [Ha Hk]. rewrite Nat.add_0_r in Hk.
    cbn [length seq fold_left] in *.
    assert (Hstep : tallyStep elements (number_of_Z t, c) k
                    = (number_of_Z (t + a), c + 1)).
    { unfold tallyStep. rewrite Hk.
      destruct (parseInt_answer a Ha) as [-> Hne].
      rewrite bool_decide_eq_false_2 by done. simpl negb. cbv iota.
      by rewrite add_answer by lia. }
    rewrite Hstep, IH.
    + f_equal; [f_equal; unfold sumZ; simpl; lia|lia].
    + intros i b Hb. destruct (H (S i) b Hb) as [Hb1 Hb2].
      split; [done|]. by rewrite Nat.add_succ_r in Hb2.
    + lia.
    + lia.
Qed.

(** The count never exceeds the number of questions it ran over, and
    stays below it when one of them has no answer. *)
Lemma tallyStep_count (elements : gmap string jsstring) acc i :
  (tallyStep elements acc i).2 <= acc.2 + 1
  /\ (unanswered elements i -> (tallyStep elements acc i).2 = acc.2).
Proof.
  destruct acc as [t c]. unfold tallyStep, unanswered.
  destruct (elements !! questionName i) as [v|]; simpl.
  - case_bool_decide; simpl; split; try lia.
    intros [?|?]; congruence.
  - split; [lia|done].
Qed.

Lemma tally_count_le (elements : gmap string jsstring) l acc :
  (fold_left (tallyStep elements) l acc).2 <= acc.2 + Z.of_nat (length l).
Proof.
  revert acc. induction l as [|i l IH]; intros acc; simpl; [lia|].
  specialize (IH (tallyStep elements acc i)).
  destruct (tallyStep_count elements acc i) as [Hle _]. lia.
Qed.

Lemma tally_count_lt (elements : gmap string jsstring) l acc i :
  In i l -> unanswered elements i ->
  (fold_left (tallyStep elements) l acc).2 < acc.2 + Z.of_nat (length l).
Proof.
  revert acc. induction l as [|j l IH]; intros acc Hin Hun; [destruct Hin|].
  simpl fold_left. simpl length.
  destruct (tallyStep_count elements acc j) as [Hle Heq].
  destruct Hin as [->|Hin].
  - pose proof (tally_count_le elements l (tallyStep elements acc i)).
    rewrite (Heq Hun) in *. lia.
  - specialize (IH (tallyStep elements acc j) Hin Hun). lia.
Qed.

Lemma categoryOfAverage_bands (average : QArith_base.Q) :
  let state := categoryOfAverage average in
  (QArith_base.Qle (QArith_base.Qmake 7 2) average -> state = lit "Healthy")
  /\ (QArith_base.Qle (QArith_base.Qmake 3 1) average ->
      QArith_base.Qlt average (QArith_base.Qmake 7 2) -> state = lit "Mild Concerns")
  /\ (QArith_base.Qle (QArith_base.Qmake 5 2) average ->
      QArith_base.Qlt average (QArith_base.Qmake 3 1) -> state = lit "Moderate Concerns")
  /\ (QArith_base.Qlt average (QArith_base.Qmake 5 2) -> state = lit "Severe Concerns").
Proof.
  assert (Hno : forall x y, QArith_base.Qlt y x -> QArith_base.Qle_bool x y = false).
  { intros x y Hlt. apply not_true_iff_false. intros Hle.
    apply QArith_base.Qle_bool_iff in Hle.
    exact (QArith_base.Qlt_not_le _ _ Hlt Hle). }
  assert (Hyes : forall x y, QArith_base.Qle x y -> QArith_base.Qle_bool x y = true)
    by (intros x y; apply QArith_base.Qle_bool_iff).
  assert (H1 : QArith_base.Qlt (QArith_base.Qmake 3 1) (QArith_base.Qmake 7 2))
    by reflexivity.
  assert (H2 : QArith_base.Qlt (QArith_base.Qmake 5 2) (QArith_base.Qmake 3 1))
    by reflexivity.
  unfold categoryOfAverage. repeat split.
  - intros H. by rewrite (Hyes _ _ H).
  - intros Hle Hlt. by rewrite (Hno _ _ Hlt), (Hyes _ _ Hle).
  - intros Hle Hlt.
    rewrite (Hno _ _ (QArith_base.Qlt_trans _ _ _ Hlt H1)).
    by rewrite (Hno _ _ Hlt), (Hyes _ _ Hle).
  - intros Hlt.
    rewrite (Hno _ _ (QArith_base.Qlt_trans _ _ _ (QArith_base.Qlt_trans _ _ _ Hlt H2) H1)).
    by rewrite (Hno _ _ (QArith_base.Qlt_trans _ _ _ Hlt H2)), (Hno _ _ Hlt).
Qed.

(** C1. Twelve answers, each an integer from 1 to 4: calculateScore shows
    a result, never the warning, and the category it shows is the one of
    the four bands that holds the exact average of the answers: Healthy
    from 3.5 up, Mild Concerns in [3, 3.5), Moderate Concerns in [2.5, 3),
    Severe Concerns below.  The outcome is a function of the form's values
    alone; the average is what is posted to the server afterwards. *)
Theorem C1_twelve_answers_fall_in_one_band (elements : gmap string jsstring)
    (answers : list Z) :
  length answers = 12%nat ->
  (forall i a, answers !! i = Some a ->
     1 <= a <= 4 /\ elements !! questionName (S i) = Some (showInt a)) ->
  let average := QArith_base.Qmake (sumZ answers) 12 in
  exists state container,
    calculateScore elements
      = Scored state container
          (PrimFloat.div (number_of_Z (sumZ answers)) (number_of_Z 12))
    /\ state = categoryOfAverage average
    /\ (QArith_base.Qle (QArith_base.Qmake 7 2) average -> state = lit "Healthy")
    /\ (QArith_base.Qle (QArith_base.Qmake 3 1) average ->
        QArith_base.Qlt average (QArith_base.Qmake 7 2) -> state = lit "Mild Concerns")
    /\ (QArith_base.Qle (QArith_base.Qmake 5 2) average ->
        QArith_base.Qlt average (QArith_base.Qmake 3 1) ->
        state = lit "Moderate Concerns")
    /\ (QArith_base.Qlt average (QArith_base.Qmake 5 2) ->
        state = lit "Severe Concerns").
Proof.
  intros Hlen H average.
  assert (Hsum : 12 <= sumZ answers <= 48).
  { pose proof (sumZ_bounds answers (fun i a Ha => proj1 (H i a Ha))) as Hb.
    rewrite Hlen in Hb. lia. }
  assert (Htally : tally elements = (number_of_Z (sumZ answers), 12)).
  { unfold tally. change (Z.to_nat questionsCount) with 12%nat. rewrite <- Hlen.
    change 0%float with (number_of_Z 0).
    rewrite (tally_answers elements answers 1 0 0); [|exact H|lia|lia].
    rewrite Hlen. reflexivity. }
  destruct (band_of_total (sumZ answers) Hsum) as (advice & bg & fg & Hband).
  unfold calculateScore. rewrite Htally.
  change (12 <? questionsCount) with false. cbv iota.
  rewrite Hband. eexists _, _. split; [reflexivity|]. split; [reflexivity|].
  apply categoryOfAverage_bands.
Qed.

Lemma C1_witness :
  exists state container,
    calculateScore (formOf healthyAnswers) = Scored state container 3.5%float
    /\ state = lit "Healthy".
Proof.
  destruct (C1_twelve_answers_fall_in_one_band (formOf healthyAnswers) healthyAnswers)
    as (state & container & Hrun & Hstate & _).
  - reflexivity.
  - intros i a Ha.
    do 12 (destruct i as [|i];
           [injection Ha as <-; split; [lia|vm_compute; reflexivity]|]).
    discriminate Ha.
  - exists state, container. split; [exact Hrun|]. rewrite Hstate. reflexivity.
Defined.

(** C2. A form in which one of the twelve questions has no answer (its
    group is absent, or nothing in it is selected): calculateScore shows the
    prompt to answer all questions on the warning colours and returns; no
    average is taken, no category is shown and nothing is posted. *)
Theorem C2_missing_answer_warns (elements : gmap string jsstring) (i : nat) :
  (1 <= i <= 12)%nat ->
  elements !! questionName i = None \/ elements !! questionName i = Some [] ->
  calculateScore elements
    = Warned {| innerHTML := lit "<h3>Please answer all questions to see your score.</h3>";
                backgroundColor := lit "#ffc107";
                color := lit "#333" |}.
Proof.
  intros Hi Hun. unfold calculateScore.
  assert (Hin : In i (seq 1 12)) by (apply in_seq; lia).
  pose proof (tally_count_lt elements (seq 1 12) (0%float, 0) i Hin Hun) as Hlt.
  change (fold_left (tallyStep elements) (seq 1 12) (0%float, 0))
    with (tally elements) in Hlt.
  destruct (tally elements) as [totalScore answeredQuestions].
  assert (answeredQuestions < questionsCount) as Hc
    by (unfold questionsCount; simpl in Hlt; lia).
  apply Z.ltb_lt in Hc. rewrite Hc. reflexivity.
Qed.

Lemma C2_witness :
  calculateScore (delete "q7" (formOf healthyAnswers))
    = Warned {| innerHTML := lit "<h3>Please answer all questions to see your score.</h3>";
                backgroundColor := lit "#ffc107";
                color := lit "#333" |}.
Proof.
  apply (C2_missing_answer_warns (delete "q7" (formOf healthyAnswers)) 7).
  - lia.
  - left. vm_compute. reflexivity.
Defined.

Example band_at_42 :
  exists c p, calculateScore (formOf [4; 4; 4; 4; 4; 4; 3; 3; 3; 3; 3; 3])
              = Scored (lit "Healthy") c p.
Proof. vm_compute. eauto. Qed.

Example band_at_41 :
  exists c p, calculateScore (formOf [4; 4; 4; 4; 4; 3; 3; 3; 3; 3; 3; 3])
              = Scored (lit "Mild Concerns") c p.
Proof. vm_compute. eauto. Qed.

Example band_at_36 :
  exists c p, calculateScore (formOf [3; 3; 3; 3; 3; 3; 3; 3; 3; 3; 3; 3])
              = Scored (lit "Mild Concerns") c p.
Proof. vm_compute. eauto. Qed.

Example band_at_35 :
  exists c p, calculateScore (formOf [3; 3; 3; 3; 3; 3; 3; 3; 3; 3; 3; 2])
              = Scored (lit "Moderate Concerns") c p.
Proof. vm_compute. eauto. Qed.

Example band_at_30 :
  exists c p, calculateScore (formOf [3; 3; 3; 3; 3; 3; 2; 2; 2; 2; 2; 2])
              = Scored (lit "Moderate Concerns") c p.
Proof. vm_compute. eauto. Qed.

Example band_at_29 :
  exists c p, calculateScore (formOf [3; 3; 3; 3; 3; 2; 2; 2; 2; 2; 2; 2])
              = Scored (lit "Severe Concerns") c p.
Proof. vm_compute. eauto. Qed.

(** ** The failure paths *)

(** A storage failure is answered with HTTP 500 and nothing is stored. *)
Example contact_storage_failure :
  contact brokenDbWorld emptyDb (contactRequest (lit "1234567890"))
  = (emptyDb, json 500 [("success", JBool false);
                        ("message", JStr (lit "Could not save contact."))]).
Proof. vm_compute. reflexivity. Qed.

Example send_mail_storage_failure :
  send_mail ∅ brokenDbWorld emptyDb mailRequest
  = (emptyDb, json 500 [("success", JBool false);
                        ("message", JStr (lit "Could not record mail."))]).
Proof. vm_compute. reflexivity. Qed.

(** An address that is truthy and not a string passes the checks and then
    has no [trim] method: the exception escapes the handler. *)
Example register_address_not_a_string :
  register quietWorld emptyDb
    (obj [("name", JStr (lit "Ann")); ("email", JStr (lit "ann@example.org"));
          ("contact", JStr (lit "555")); ("address", JBool true)])
  = (emptyDb, Unhandled TypeError).
Proof. vm_compute. reflexivity. Qed.

(* ================================================================== *)
(** * Further properties *)

(** ** The regular-expression matcher and the email pattern *)

Lemma matches_cat_inv r1 r2 s :
  matches (ReCat r1 r2) s ->
  exists s1 s2, s = s1 ++ s2 /\ matches r1 s1 /\ matches r2 s2.
Proof. inversion 1; subst; eauto. Qed.

Lemma matches_alt_inv r1 r2 s :
  matches (ReAlt r1 r2) s -> matches r1 s \/ matches r2 s.
Proof. inversion 1; subst; eauto. Qed.

Lemma matches_class_inv p s :
  matches (ReClass p) s -> exists c, s = [c] /\ p c = true.
Proof. inversion 1; subst; eauto. Qed.

Lemma nullable_matches r : nullable r = true <-> matches r [].
Proof.
  induction r as [| |p|r1 IH1 r2 IH2|r1 IH1 r2 IH2|r IH]; simpl.
  - split; [discriminate|inversion 1].
  - split; [constructor|done].
  - split; [discriminate|inversion 1].
  - rewrite andb_true_iff, IH1, IH2. split.
    + intros [H1 H2]. apply (MCat r1 r2 [] [] H1 H2).
    + intros H. apply matches_cat_inv in H as (s1 & s2 & Heq & H1 & H2).
      symmetry in Heq. apply app_eq_nil in Heq as [-> ->]. done.
  - rewrite orb_true_iff, IH1, IH2. split.
    + intros [H|H]; [by apply MAltL|by apply MAltR].
    + apply matches_alt_inv.
  - split; [constructor|done].
Qed.

Lemma matches_star_cons r c s :
  matches (ReStar r) (c :: s) ->
  exists s1 s2, s = s1 ++ s2 /\ matches r (c :: s1) /\ matches (ReStar r) s2.
Proof.
  intros H. remember (ReStar r) as r' eqn:Hr. remember (c :: s) as t eqn:Ht.
  revert s Ht. induction H as [| | | | | |r0 s1 s2 H1 _ H2 IH2]; intros s' Ht;
    try discriminate.
  injection Hr as ->.
  destruct s1 as [|c1 s1]; simpl in Ht.
  - apply IH2; done.
  - injection Ht as -> <-. eauto.
Qed.

Lemma matches_cat_cons r1 r2 c s :
  matches (ReCat r1 r2) (c :: s)
  <-> (exists s1 s2, s = s1 ++ s2 /\ matches r1 (c :: s1) /\ matches r2 s2)
      \/ (matches r1 [] /\ matches r2 (c :: s)).
Proof.
  split.
  - intros H. apply matches_cat_inv in H as (s1 & s2 & Heq & H1 & H2).
    destruct s1 as [|c1 s1]; simpl in Heq.
    + right. subst. done.
    + injection Heq as -> ->. left. eauto.
  - intros [(s1 & s2 & -> & H1 & H2)|[H1 H2]].
    + apply (MCat r1 r2 (c :: s1) s2 H1 H2).
    + apply (MCat r1 r2 [] (c :: s) H1 H2).
Qed.

Lemma deriv_matches c r s : matches (deriv c r) s <-> matches r (c :: s).
Proof.
  revert s. induction r as [| |p|r1 IH1 r2 IH2|r1 IH1 r2 IH2|r IH]; intros s; simpl.
  - split; inversion 1.
  - split; inversion 1.
  - destruct (p c) eqn:Hp; split.
    + inversion 1; subst. by constructor.
    + intros H. apply matches_class_inv in H as (c' & Heq & _).
      injection Heq as <- ->. constructor.
    + inversion 1.
    + intros H. apply matches_class_inv in H as (c' & Heq & Hc).
      injection Heq as <- ->. congruence.
  - assert (Hcat : matches (ReCat (deriv c r1) r2) s
                   <-> exists s1 s2, s = s1 ++ s2 /\ matches r1 (c :: s1) /\ matches r2 s2).
    { split.
      - intros H. apply matches_cat_inv in H as (s1 & s2 & -> & H1 & H2).
        apply IH1 in H1. eauto.
      - intros (s1 & s2 & -> & H1 & H2). constructor; [by apply IH1|done]. }
    rewrite matches_cat_cons.
    destruct (nullable r1) eqn:Hn.
    + split.
      * intros H. apply matches_alt_inv in H as [H|H]; [left; by apply Hcat|right].
        split; [by apply nullable_matches|by apply IH2].
      * intros [H|[_ H]]; [apply MAltL; by apply Hcat|apply MAltR; by apply IH2].
    + rewrite Hcat. split; [auto|].
      intros [H|[H _]]; [done|]. apply nullable_matches in H. congruence.
  - split.
    + intros H. apply matches_alt_inv in H as [H|H];
        [apply MAltL; by apply IH1|apply MAltR; by apply IH2].
    + intros H. apply matches_alt_inv in H as [H|H];
        [apply MAltL; by apply IH1|apply MAltR; by apply IH2].
  - split.
    + intros H. apply matches_cat_inv in H as (s1 & s2 & -> & H1 & H2).
      apply IH in H1. apply (MStarApp r (c :: s1) s2 H1 H2).
    + intros H. apply matches_star_cons in H as (s1 & s2 & -> & H1 & H2).
      constructor; [by apply IH|done].
Qed.

(** The derivative matcher decides membership in the language. *)
Lemma test_matches r s : test r s = true <-> matches r s.
Proof.
  unfold test. revert r. induction s as [|c s IH]; intros r; simpl.
  - apply nullable_matches.
  - rewrite IH. apply deriv_matches.
Qed.

Lemma matches_star_class p s :
  matches (ReStar (ReClass p)) s <-> Forall (fun c => p c = true) s.
Proof.
  split.
  - intros H. remember (ReStar (ReClass p)) as r eqn:Hr.
    induction H as [| | | | | |r0 s1 s2 H1 _ H2 IH2]; try discriminate.
    + constructor.
    + injection Hr as ->.
      apply matches_class_inv in H1 as (c & -> & Hc).
      constructor; [done|]. by apply IH2.
  - induction 1 as [|c s Hc _ IH]; [constructor|].
    apply (MStarApp (ReClass p) [c] s); [by constructor|done].
Qed.

Lemma matches_plus_class p s :
  matches (RePlus (ReClass p)) s
  <-> s <> [] /\ Forall (fun c => p c = true) s.
Proof.
  unfold RePlus. split.
  - intros H. apply matches_cat_inv in H as (s1 & s2 & -> & H1 & H2).
    apply matches_class_inv in H1 as (c & -> & Hc).
    apply matches_star_class in H2. split; [done|]. by constructor.
  - intros [Hne H]. destruct H as [|c s Hc Hs]; [done|].
    apply (MCat (ReClass p) _ [c] s); [by constructor|by apply matches_star_class].
Qed.

Lemma matches_char c s : matches (ReChar c) s <-> s = [c].
Proof.
  unfold ReChar. split.
  - intros H. apply matches_class_inv in H as (c' & -> & Hc).
    apply N.eqb_eq in Hc. by subst.
  - intros ->. constructor. apply N.eqb_refl.
Qed.

Lemma isValidEmail_parts (email : jsstring) :
  isValidEmail email = true
  <-> exists local domain tld,
        email = local ++ [64%N] ++ domain ++ [46%N] ++ tld
        /\ emailPart local /\ emailPart domain /\ emailPart tld.
Proof.
  unfold isValidEmail, emailRegex, emailPart. rewrite test_matches. split.
  - intros H.
    apply matches_cat_inv in H as (l & s1 & -> & Hl & H).
    apply matches_cat_inv in H as (a & s2 & -> & Ha & H).
    apply matches_cat_inv in H as (d & s3 & -> & Hd & H).
    apply matches_cat_inv in H as (dot & t & -> & Hdot & Ht).
    apply matches_char in Ha as ->. apply matches_char in Hdot as ->.
    apply matches_plus_class in Hl, Hd, Ht.
    exists l, d, t. done.
  - intros (l & d & t & -> & Hl & Hd & Ht).
    apply matches_plus_class in Hl, Hd, Ht.
    repeat (constructor; try done); by apply matches_char.
Qed.

(** X1. isValidEmail accepts exactly the strings made of a local part, an
    at sign, a domain part, a dot and a last part, each part a non-empty
    run of units that are neither white space nor an at sign. *)
Theorem isValidEmail_iff (email : jsstring) :
  isValidEmail email = true
  <-> exists local domain tld,
        email = local ++ [64%N] ++ domain ++ [46%N] ++ tld
        /\ emailPart local /\ emailPart domain /\ emailPart tld.
Proof. apply isValidEmail_parts. Qed.

Lemma notSpaceAt_inv c :
  notSpaceAt c = true -> isWhiteSpace c = false /\ c <> 64%N.
Proof.
  unfold notSpaceAt. rewrite negb_true_iff, orb_false_iff, N.eqb_neq. done.
Qed.

(** X2. An address isValidEmail accepts holds no white space, exactly one
    at sign, and at least five units. *)
Theorem isValidEmail_accepts_only (email : jsstring) :
  isValidEmail email = true ->
  Forall (fun c => isWhiteSpace c = false) email
  /\ length (filter (fun c => c = 64%N) email) = 1%nat
  /\ (5 <= length email)%nat.
Proof.
  intros H. apply isValidEmail_parts in H
    as (l & d & t & -> & [Hl1 Hl] & [Hd1 Hd] & [Ht1 Ht]).
  assert (Hpart : forall s, Forall (fun c => notSpaceAt c = true) s ->
            Forall (fun c => isWhiteSpace c = false) s
            /\ filter (fun c => c = 64%N) s = []).
  { induction 1 as [|c s Hc _ [IH1 IH2]]; [done|].
    apply notSpaceAt_inv in Hc as [Hw Hat]. split; [by constructor|].
    rewrite filter_cons_False by done. done. }
  destruct (Hpart l Hl) as [Wl Fl], (Hpart d Hd) as [Wd Fd], (Hpart t Ht) as [Wt Ft].
  split; [|split].
  - repeat (apply Forall_app; split); try done; by repeat constructor.
  - rewrite !filter_app, Fl, Fd, Ft. reflexivity.
  - rewrite !length_app. simpl.
    destruct l, d, t; simpl; try done; lia.
Qed.

Lemma isValidEmail_accepts_only_witness :
  Forall (fun c => isWhiteSpace c = false) (lit "ann@example.org")
  /\ length (filter (fun c => c = 64%N) (lit "ann@example.org")) = 1%nat
  /\ (5 <= length (lit "ann@example.org"))%nat.
Proof.
  apply (isValidEmail_accepts_only (lit "ann@example.org")).
  vm_compute. reflexivity.
Defined.

(** ** trim *)

Lemma trimStart_split s :
  exists p, s = p ++ trimStart s /\ blank p
            /\ forall c s', trimStart s = c :: s' -> isWhiteSpace c = false.
Proof.
  induction s as [|c s (p & Heq & Hp & Hhd)]; simpl.
  - exists []. repeat split; [constructor|discriminate].
  - destruct (isWhiteSpace c) eqn:Hc.
    + exists (c :: p). split; [simpl; congruence|]. split; [by constructor|done].
    + exists []. split; [done|]. split; [constructor|].
      intros c' s' [= <- <-]. done.
Qed.

Lemma trimEnd_split s :
  exists q, s = trimEnd s ++ q /\ blank q
            /\ forall c s', trimEnd s = s' ++ [c] -> isWhiteSpace c = false.
Proof.
  unfold trimEnd.
  destruct (trimStart_split (rev s)) as (p & Heq & Hp & Hhd).
  exists (rev p). split; [|split].
  - rewrite <- rev_app_distr, <- Heq. by rewrite rev_involutive.
  - unfold blank. apply Forall_rev. exact Hp.
  - intros c s' Hs. apply (Hhd c (rev s')).
    rewrite <- (rev_involutive (trimStart (rev s))), Hs, rev_app_distr. reflexivity.
Qed.

(** trim removes the white space around a string and nothing else. *)
Lemma trim_split s :
  exists p q, s = p ++ trim s ++ q /\ blank p /\ blank q /\ tight (trim s).
Proof.
  unfold trim.
  destruct (trimStart_split s) as (p & Hs & Hp & Hhd).
  destruct (trimEnd_split (trimStart s)) as (q & Ht & Hq & Hlast).
  exists p, q. split; [|split; [done|split; [done|split; [|done]]]].
  - rewrite <- Ht. exact Hs.
  - intros c s' Hc.
    destruct (trimStart s) as [|c0 t] eqn:Hts.
    { unfold trimEnd in Hc. simpl in Hc. discriminate. }
    rewrite Hc in Ht. simpl in Ht. injection Ht as -> _. by eapply Hhd.
Qed.

Lemma trimStart_blank_app p t : blank p -> trimStart (p ++ t) = trimStart t.
Proof. induction 1 as [|c p Hc _ IH]; simpl; [done|]. by rewrite Hc. Qed.

Lemma trimStart_tight t :
  (forall c s', t = c :: s' -> isWhiteSpace c = false) -> trimStart t = t.
Proof. destruct t as [|c t]; [done|]. intros H. simpl. by rewrite (H c t). Qed.

Lemma trimEnd_app_blank t q : blank q -> trimEnd (t ++ q) = trimEnd t.
Proof.
  intros Hq. unfold trimEnd. rewrite rev_app_distr, trimStart_blank_app; [done|].
  unfold blank. by apply Forall_rev.
Qed.

Lemma trimEnd_tight t :
  (forall c s', t = s' ++ [c] -> isWhiteSpace c = false) -> trimEnd t = t.
Proof.
  intros H. unfold trimEnd. rewrite trimStart_tight; [apply rev_involutive|].
  intros c s' Hr. apply (H c (rev s')).
  rewrite <- (rev_involutive t), Hr. reflexivity.
Qed.

Lemma trim_of_split p v q :
  blank p -> blank q -> tight v -> trim (p ++ v ++ q) = v.
Proof.
  intros Hp Hq [Hhd Hlast]. unfold trim. rewrite trimStart_blank_app by done.
  destruct v as [|c v].
  - simpl. rewrite <- (app_nil_r q), trimStart_blank_app by done. reflexivity.
  - rewrite trimStart_tight.
    + rewrite trimEnd_app_blank by done. by apply trimEnd_tight.
    + intros c' s' [= <- _]. by eapply Hhd.
Qed.

(** X3. validateStringField accepts a value exactly when it is a string
    made of white space, then the accepted value, then white space, where
    the accepted value neither starts nor ends with white space and has
    between minLength and maxLength units. *)
Theorem validateStringField_valid_iff v fieldName minLength maxLength value :
  validateStringField v fieldName minLength maxLength = FieldValid value
  <-> exists s p q,
        v = JStr s /\ s = p ++ value ++ q /\ blank p /\ blank q /\ tight value
        /\ minLength <= strlen value <= maxLength.
Proof.
  split.
  - unfold validateStringField. destruct v as [| | | |s| |]; try discriminate.
    destruct (Z.ltb_spec (strlen (trim s)) minLength); [discriminate|].
    destruct (Z.gtb_spec (strlen (trim s)) maxLength); [discriminate|].
    intros [= <-].
    destruct (trim_split s) as (p & q & Hs & Hp & Hq & Ht).
    exists s, p, q. repeat split; try done; try apply Ht; lia.
  - intros (s & p & q & -> & -> & Hp & Hq & Ht & Hlen).
    rewrite validateStringField_ok; rewrite trim_of_split by done; done.
Qed.

Lemma fieldAccepted_iff v fieldName lo hi value :
  validateStringField v fieldName lo hi = FieldValid value
  <-> fieldAccepted v lo hi value.
Proof.
  unfold fieldAccepted. split.
  - unfold validateStringField. destruct v as [| | | |s| |]; try discriminate.
    destruct (Z.ltb_spec (strlen (trim s)) lo); [discriminate|].
    destruct (Z.gtb_spec (strlen (trim s)) hi); [discriminate|].
    intros [= <-]. exists s. repeat split; done || lia.
  - intros (s & -> & -> & Hlen). by apply validateStringField_ok.
Qed.

(** ** What the validation functions accept, reject and raise on *)

Lemma checkEmail_cases v errors :
  (checkEmail v errors = errors /\ exists email, emailAccepted v email)
  \/ (exists x, checkEmail v errors = errors ++ [x]
                /\ forall email, ~ emailAccepted v email).
Proof.
  unfold checkEmail, emailAccepted.
  destruct v as [| | | |e| |];
    try (right; eexists; split; [reflexivity|]; intros ? (? & ? & _); discriminate).
  simpl truthy. case_bool_decide as He; simpl.
  { right. eexists. split; [reflexivity|]. intros ? (? & [= <-] & ? & _). done. }
  destruct (isValidEmail (trim e)) eqn:Hv; simpl.
  - destruct (Z.gtb_spec (strlen (trim e)) 255).
    + right. eexists. split; [reflexivity|]. intros ? (? & [= <-] & _ & _ & _ & ?). lia.
    + left. split; [done|]. exists (trim e), e. repeat split; done || lia.
  - right. eexists. split; [reflexivity|].
    intros ? (? & [= <-] & _ & _ & ? & _). congruence.
Qed.

Lemma emailAccepted_inj v e1 e2 : emailAccepted v e1 -> emailAccepted v e2 -> e1 = e2.
Proof. intros (s1 & -> & _ & -> & _) (s2 & [= <-] & _ & -> & _). done. Qed.

Lemma fieldAccepted_inj v lo hi t1 t2 :
  fieldAccepted v lo hi t1 -> fieldAccepted v lo hi t2 -> t1 = t2.
Proof. intros (s1 & -> & -> & _) (s2 & [= <-] & -> & _). done. Qed.

Lemma snoc_not_nil {A} (l : list A) x : l ++ [x] <> [].
Proof. destruct l; discriminate. Qed.

Ltac rejected :=
  left; rewrite ?snoc_length_pos, ?nonempty_length_pos;
  eexists; split; [reflexivity|first [apply snoc_not_nil|discriminate]].

Lemma validateRegistration_cases (data : gmap string JsValue) :
  (exists errors, validateRegistration data = Normal (Invalid errors) /\ errors <> [])
  \/ exists n e c,
       fieldAccepted (get data "name") 1 100 n
       /\ emailAccepted (get data "email") e
       /\ fieldAccepted (get data "contact") 1 20 c
       /\ tooLong (get data "address") 500 = false
       /\ validateRegistration data
          = (address ← (if truthy (get data "address")
                        then callTrim (get data "address") else Normal []);
             Normal (Valid {| reg_name := n; reg_email := e;
                              reg_address := address; reg_contact := c |})).
Proof.
  unfold validateRegistration.
  destruct (validateStringField (get data "name") (lit "Name") 1 100)
    as [n|x1] eqn:Hn; cbn [pushInvalid];
  match goal with
  | |- context [checkEmail ?v ?E] =>
      destruct (checkEmail_cases v E) as [[He Hacc]|(x2 & He & _)]; rewrite He
  end;
  destruct (validateStringField (get data "contact") (lit "Contact") 1 20)
    as [c|x3] eqn:Hc; cbn [pushInvalid];
  destruct (tooLong (get data "address") 500) eqn:Ht;
  try rejected.
  right. destruct Hacc as [e Hacc].
  exists n, e, c. apply fieldAccepted_iff in Hn, Hc.
  split; [done|]. split; [done|]. split; [done|]. split; [done|].
  change (0 <? Z.of_nat (length (@nil jsstring))) with false. cbv iota.
  destruct Hacc as (s & Hs & _ & -> & _). rewrite Hs. reflexivity.
Qed.

Lemma validateRegistration_accepted (data : gmap string JsValue) n e c :
  fieldAccepted (get data "name") 1 100 n ->
  emailAccepted (get data "email") e ->
  fieldAccepted (get data "contact") 1 20 c ->
  tooLong (get data "address") 500 = false ->
  validateRegistration data
  = (address ← (if truthy (get data "address")
                then callTrim (get data "address") else Normal []);
     Normal (Valid {| reg_name := n; reg_email := e;
                      reg_address := address; reg_contact := c |})).
Proof.
  intros (sn & Hn & -> & Hnl) (se & He & Hne & -> & Hev & Hel) (sc & Hc & -> & Hcl) Ht.
  unfold validateRegistration. rewrite Hn, He, Hc, Ht.
  rewrite !validateStringField_ok by done. cbn [pushInvalid].
  rewrite checkEmail_ok by done. reflexivity.
Qed.

Lemma optional_cases v max :
  tooLong v max = false ->
  (truthy v = false)
  \/ (exists s, v = JStr s /\ s <> [] /\ strlen (trim s) <= max)
  \/ notText v.
Proof.
  unfold notText. destruct v as [| |b|x|s| |]; simpl; intros Ht.
  - by left.
  - by left.
  - destruct b; [right; right; split; [done|discriminate]|by left].
  - destruct (negb _); [right; right; split; [done|discriminate]|by left].
  - case_bool_decide as Hs; simpl in *; [by left|]. right. left.
    exists s. repeat split; [done|].
    destruct (Z.gtb_spec (strlen (trim s)) max); [discriminate|lia].
  - right. right. split; [done|discriminate].
  - right. right. split; [done|discriminate].
Qed.

Lemma optionalAccepted_tooLong v max value :
  optionalAccepted v max value -> tooLong v max = false.
Proof.
  intros [[Hf _]|(s & -> & Hs & Hlen & _)].
  - unfold tooLong. destruct v; try done. by rewrite Hf.
  - unfold tooLong. simpl.
    destruct (Z.gtb_spec (strlen (trim s)) max); [lia|]. by rewrite andb_false_r.
Qed.

(** X4. validateRegistration returns valid data exactly when the name is
    a string of 1 to 100 units after trimming, the email a non-empty string
    that after trimming has the email pattern and at most 255 units, the
    contact a string of 1 to 20 units after trimming, and the address is
    left out or is a string of at most 500 units after trimming; the data
    are the trimmed fields, the address empty when left out. *)
Theorem validateRegistration_valid_iff (data : gmap string JsValue) d :
  validateRegistration data = Normal (Valid d)
  <-> fieldAccepted (get data "name") 1 100 (reg_name d)
      /\ emailAccepted (get data "email") (reg_email d)
      /\ fieldAccepted (get data "contact") 1 20 (reg_contact d)
      /\ exists value,
           optionalAccepted (get data "address") 500 value
           /\ reg_address d = default [] value.
Proof.
  split.
  - intros H.
    destruct (validateRegistration_cases data)
      as [(errors & He & _)|(n & e & c & Hn & Hem & Hc & Ht & Hrun)];
      [congruence|].
    rewrite H in Hrun.
    destruct (optional_cases _ _ Ht) as [Hf|[(s & Hs & Hne & Hlen)|[Htr Hns]]].
    + rewrite Hf in Hrun. injection Hrun as ->. simpl.
      repeat split; try done. exists None. split; [by left|done].
    + rewrite Hs in Hrun. simpl in Hrun.
      rewrite bool_decide_eq_false_2 in Hrun by done. injection Hrun as ->. simpl.
      repeat split; try done. exists (Some (trim s)).
      split; [right; exists s; rewrite Hs; done|done].
    + rewrite Htr in Hrun.
      destruct (get data "address"); try discriminate. by destruct (Hns s).
  - intros (Hn & He & Hc & value & Ha & Hd).
    rewrite (validateRegistration_accepted data _ _ _ Hn He Hc
               (optionalAccepted_tooLong _ _ _ Ha)).
    destruct d as [dn de da dc]. simpl in *.
    destruct Ha as [[Hf ->]|(s & Hs & Hne & Hlen & ->)].
    + rewrite Hf. simpl in *. by subst.
    + rewrite Hs. simpl. rewrite bool_decide_eq_false_2 by done.
      simpl in *. by subst.
Qed.

(** X5. validateRegistration raises exactly when the name, the email and
    the contact are acceptable and the address holds something truthy that
    is not a string (a number, true, an array, an object): such an address
    passes the length check and then has no trim method. *)
Theorem validateRegistration_throws_iff (data : gmap string JsValue) e :
  validateRegistration data = Throw e
  <-> e = TypeError
      /\ (exists name, fieldAccepted (get data "name") 1 100 name)
      /\ (exists email, emailAccepted (get data "email") email)
      /\ (exists contact_, fieldAccepted (get data "contact") 1 20 contact_)
      /\ notText (get data "address").
Proof.
  split.
  - intros H.
    destruct (validateRegistration_cases data)
      as [(errors & He & _)|(n & em & c & Hn & Hem & Hc & Ht & Hrun)];
      [congruence|].
    rewrite H in Hrun.
    destruct (optional_cases _ _ Ht) as [Hf|[(s & Hs & Hne & Hlen)|[Htr Hns]]].
    + rewrite Hf in Hrun. discriminate.
    + rewrite Hs in Hrun. simpl in Hrun.
      rewrite bool_decide_eq_false_2 in Hrun by done. discriminate.
    + rewrite Htr in Hrun.
      destruct (get data "address") eqn:Ha; try (by destruct (Hns s));
        injection Hrun as ->; repeat split; eauto.
  - intros (-> & [n Hn] & [em Hem] & [c Hc] & [Htr Hns]).
    assert (Ht : tooLong (get data "address") 500 = false).
    { unfold tooLong. destruct (get data "address"); try done. by destruct (Hns s). }
    rewrite (validateRegistration_accepted data _ _ _ Hn Hem Hc Ht), Htr.
    destruct (get data "address"); try done. by destruct (Hns s).
Qed.

Lemma validateContact_cases (data : gmap string JsValue) :
  (exists errors, validateContact data = Normal (Invalid errors) /\ errors <> [])
  \/ exists n e m,
       fieldAccepted (get data "name") 1 100 n
       /\ emailAccepted (get data "email") e
       /\ fieldAccepted (get data "message") 10 5000 m
       /\ validateContact data
          = Normal (Valid {| con_name := n; con_email := e; con_message := m |}).
Proof.
  unfold validateContact.
  destruct (validateStringField (get data "name") (lit "Name") 1 100)
    as [n|x1] eqn:Hn; cbn [pushInvalid];
  match goal with
  | |- context [checkEmail ?v ?E] =>
      destruct (checkEmail_cases v E) as [[He Hacc]|(x2 & He & _)]; rewrite He
  end;
  destruct (validateStringField (get data "message") (lit "Message") 10 5000)
    as [m|x3] eqn:Hm; cbn [pushInvalid];
  try rejected.
  right. destruct Hacc as [e Hacc].
  exists n, e, m. apply fieldAccepted_iff in Hn, Hm.
  split; [done|]. split; [done|]. split; [done|].
  change (0 <? Z.of_nat (length (@nil jsstring))) with false. cbv iota.
  destruct Hacc as (s & Hs & _ & -> & _). rewrite Hs. reflexivity.
Qed.

(** X6. validateContact returns valid data exactly when the name is a
    string of 1 to 100 units after trimming, the email a non-empty string
    that after trimming has the email pattern and at most 255 units, and
    the message a string of 10 to 5000 units after trimming; the data are
    the trimmed fields. *)
Theorem validateContact_valid_iff (data : gmap string JsValue) d :
  validateContact data = Normal (Valid d)
  <-> fieldAccepted (get data "name") 1 100 (con_name d)
      /\ emailAccepted (get data "email") (con_email d)
      /\ fieldAccepted (get data "message") 10 5000 (con_message d).
Proof.
  destruct (validateContact_cases data)
    as [(errors & He & _)|(n & e & m & Hn & Hem & Hm & Hrun)].
  - split; [congruence|]. intros (Hn & Hem & Hm).
    destruct Hn as (sn & Hsn & Hvn & Hln), Hem as (se & Hse & Hne & Hve & Hv & Hle),
      Hm as (sm & Hsm & Hvm & Hlm).
    unfold get in Hsn, Hse, Hsm.
    assert (Hok : validateContact data
                  = Normal (Valid {| con_name := trim sn; con_email := trim se;
                                     con_message := trim sm |})).
    { unfold validateContact. unfold get. rewrite Hsn, Hse, Hsm.
      rewrite !validateStringField_ok by done. cbn [pushInvalid].
      rewrite checkEmail_ok by done. reflexivity. }
    congruence.
  - rewrite Hrun. split.
    + intros [= <-]. done.
    + intros (Hn' & Hem' & Hm'). destruct d as [dn de dm]. simpl in *.
      rewrite (fieldAccepted_inj _ _ _ _ _ Hn Hn'),
        (emailAccepted_inj _ _ _ Hem Hem'), (fieldAccepted_inj _ _ _ _ _ Hm Hm').
      reflexivity.
Qed.

(** X7. validateContact never raises: whatever the body holds, it returns
    valid data or a non-empty list of errors, and the contact handler
    responds, with status 200, 400 or 500. *)
Theorem contact_always_responds (data : gmap string JsValue) :
  ((exists d, validateContact data = Normal (Valid d))
   \/ (exists errors, validateContact data = Normal (Invalid errors) /\ errors <> []))
  /\ forall w db,
       exists r, snd (contact w db data) = Responded r
                 /\ (status r = 200 \/ status r = 400 \/ status r = 500).
Proof.
  split.
  - destruct (validateContact_cases data)
      as [(errors & He & Hne)|(n & e & m & _ & _ & _ & Hrun)]; eauto.
  - intros w db. unfold contact.
    destruct (validateContact_cases data)
      as [(errors & -> & Hne)|(n & e & m & _ & _ & _ & ->)].
    + eexists. split; [reflexivity|]. simpl. auto.
    + destruct (insertContact _ _ _) as [[db' id]|err];
        (eexists; split; [reflexivity|]; simpl; auto).
Qed.

Lemma validateScore_cases (data : gmap string JsValue) :
  (exists errors, validateScore data = Normal (Invalid errors) /\ errors <> [])
  \/ exists x,
       scoreAccepted (get data "score") x
       /\ tooLong (get data "details") 1000 = false
       /\ validateScore data
          = (details ← (if truthy (get data "details")
                        then Some <$> callTrim (get data "details") else Normal None);
             Normal (Valid {| sc_score := x; sc_details := details |})).
Proof.
  unfold validateScore, scoreAccepted.
  destruct (get data "score") as [| |b|x|s|xs|fs]; cbn [app];
    try (destruct (tooLong (get data "details") 1000); rejected).
  destruct (PrimFloat.ltb x 0) eqn:H0; cbn [orb];
    [destruct (tooLong (get data "details") 1000); rejected|].
  destruct (PrimFloat.ltb 4 x) eqn:H4;
    [destruct (tooLong (get data "details") 1000); rejected|].
  destruct (tooLong (get data "details") 1000) eqn:Ht; [rejected|].
  right. exists x. repeat split; done.
Qed.

Lemma validateScore_accepted (data : gmap string JsValue) x :
  scoreAccepted (get data "score") x ->
  tooLong (get data "details") 1000 = false ->
  validateScore data
  = (details ← (if truthy (get data "details")
                then Some <$> callTrim (get data "details") else Normal None);
     Normal (Valid {| sc_score := x; sc_details := details |})).
Proof.
  intros (Hs & H0 & H4) Ht. unfold validateScore. rewrite Hs, H0, H4, Ht.
  reflexivity.
Qed.

Lemma optional_run v max :
  tooLong v max = false ->
  (exists value, optionalAccepted v max value
     /\ (if truthy v then Some <$> callTrim v else Normal None) = Normal value)
  \/ (notText v
      /\ (if truthy v then Some <$> callTrim v else Normal None) = Throw TypeError).
Proof.
  intros Ht.
  destruct (optional_cases _ _ Ht) as [Hf|[(s & -> & Hne & Hlen)|[Htr Hns]]].
  - left. exists None. rewrite Hf. split; [by left|done].
  - left. exists (Some (trim s)). simpl. rewrite bool_decide_eq_false_2 by done.
    split; [right; by exists s|done].
  - right. split; [done|]. rewrite Htr.
    destruct v; try done. by destruct (Hns s).
Qed.

Lemma optionalAccepted_inj v max a b :
  optionalAccepted v max a -> optionalAccepted v max b -> a = b.
Proof.
  intros [[Hf ->]|(s & -> & Hs & _ & ->)] [[Hf' ->]|(s' & Hs' & Hne & _ & ->)];
    try done.
  - subst. simpl in Hf. by rewrite bool_decide_eq_false_2 in Hf.
  - simpl in Hf'. by rewrite bool_decide_eq_false_2 in Hf'.
  - by injection Hs' as <-.
Qed.

Lemma optionalAccepted_notText v max a : optionalAccepted v max a -> ~ notText v.
Proof.
  intros [[Hf _]|(s & -> & _)] [Htr Hns]; [congruence|by destruct (Hns s)].
Qed.

(** X8. validateScore returns valid data exactly when the score is a
    number that is neither below 0 nor above 4 and the details are left out
    or are a string of at most 1000 units after trimming; the data hold the
    score as given and the trimmed details. *)
Theorem validateScore_valid_iff (data : gmap string JsValue) d :
  validateScore data = Normal (Valid d)
  <-> scoreAccepted (get data "score") (sc_score d)
      /\ optionalAccepted (get data "details") 1000 (sc_details d).
Proof.
  split.
  - intros H.
    destruct (validateScore_cases data)
      as [(errors & He & _)|(x & Hx & Ht & Hrun)]; [congruence|].
    rewrite H in Hrun.
    destruct (optional_run _ _ Ht) as [(value & Hacc & Hv)|[_ Hv]];
      rewrite Hv in Hrun; [|discriminate].
    injection Hrun as ->. done.
  - intros [Hx Hd]. destruct d as [dx dd]. simpl in *.
    pose proof (optionalAccepted_tooLong _ _ _ Hd) as Ht.
    rewrite (validateScore_accepted data dx Hx Ht).
    destruct (optional_run _ _ Ht) as [(value & Hacc & ->)|[Hn _]].
    + by rewrite (optionalAccepted_inj _ _ _ _ Hacc Hd).
    + by destruct (optionalAccepted_notText _ _ _ Hd).
Qed.

(** X9. validateScore raises exactly when the score is acceptable and the
    details hold something truthy that is not a string. *)
Theorem validateScore_throws_iff (data : gmap string JsValue) e :
  validateScore data = Throw e
  <-> e = TypeError
      /\ (exists x, scoreAccepted (get data "score") x)
      /\ notText (get data "details").
Proof.
  split.
  - intros H.
    destruct (validateScore_cases data)
      as [(errors & He & _)|(x & Hx & Ht & Hrun)]; [congruence|].
    rewrite H in Hrun.
    destruct (optional_run _ _ Ht) as [(value & Hacc & Hv)|[Hn Hv]];
      rewrite Hv in Hrun; [discriminate|].
    injection Hrun as ->. eauto.
  - intros (-> & [x Hx] & Hn).
    assert (Ht : tooLong (get data "details") 1000 = false).
    { destruct Hn as [_ Hns]. unfold tooLong.
      destruct (get data "details"); try done. by destruct (Hns s). }
    rewrite (validateScore_accepted data x Hx Ht).
    destruct (optional_run _ _ Ht) as [(value & Hacc & _)|[_ ->]]; [|done].
    by destruct (optionalAccepted_notText _ _ _ Hacc).
Qed.

Lemma checkRecipients_strings ss errors :
  checkRecipients (JStr <$> ss) errors
  = Normal (errors ++ (invalidRecipient
                         <$> filter (fun s => isValidEmail (trim s) = false) ss)).
Proof.
  revert errors. induction ss as [|s ss IH]; intros errors; simpl.
  - by rewrite app_nil_r.
  - rewrite IH. destruct (isValidEmail (trim s)) eqn:Hv; simpl.
    + by rewrite filter_cons_False by congruence.
    + rewrite filter_cons_True by done. simpl. by rewrite <- app_assoc.
Qed.

Lemma checkRecipients_nonString xs errors :
  holdsNonString xs -> checkRecipients xs errors = Throw TypeError.
Proof.
  intros (x & Hin & Hx). revert errors.
  induction xs as [|y xs IH]; intros errors; [by apply elem_of_nil in Hin|].
  simpl. destruct y as [| | | |s| |]; try reflexivity.
  simpl. apply elem_of_cons in Hin as [->|Hin]; [by destruct (Hx s)|].
  by apply IH.
Qed.

Lemma strings_or_not (xs : list JsValue) :
  (exists ss, xs = JStr <$> ss) \/ holdsNonString xs.
Proof.
  induction xs as [|x xs [[ss ->]|(y & Hin & Hy)]].
  - left. by exists [].
  - destruct x as [| | | |s| |];
      try (right; eexists; split; [by left|discriminate]).
    left. by exists (s :: ss).
  - right. exists y. split; [by right|done].
Qed.

Lemma trimAll_strings ss : trimAll (JStr <$> ss) = Normal (trim <$> ss).
Proof.
  induction ss as [|s ss IH]; [done|].
  change (trimAll (JStr <$> s :: ss))
    with (t ← callTrim (JStr s); ts ← trimAll (JStr <$> ss); Normal (t :: ts)).
  rewrite IH. reflexivity.
Qed.

Lemma fmap_JStr_inj (ss ss' : list jsstring) :
  JStr <$> ss = JStr <$> ss' -> ss = ss'.
Proof.
  revert ss'. induction ss as [|s ss IH]; intros [|s' ss']; simpl; try done.
  intros [= -> H]. f_equal. by apply IH.
Qed.

Lemma recipientsAccepted_inj v a b :
  recipientsAccepted v a -> recipientsAccepted v b -> a = b.
Proof.
  intros [(s & -> & _ & _ & ->)|(ss & -> & _ & ->)]
         [(s' & Hs & _ & _ & ->)|(ss' & Hs & _ & ->)]; try done.
  - by injection Hs as <-.
  - injection Hs as Hs. by rewrite (fmap_JStr_inj _ _ Hs).
Qed.

(** The recipient checks end in one of three ways. *)
Lemma recipientStage_cases v :
  (exists to, recipientsAccepted v to /\ recipientStage v = Normal []
              /\ recipientList v = Normal to)
  \/ (exists errors, recipientStage v = Normal errors /\ errors <> []
                     /\ forall to, ~ recipientsAccepted v to)
  \/ (exists xs, v = JArr xs /\ holdsNonString xs
                 /\ recipientStage v = Throw TypeError).
Proof.
  unfold recipientStage, recipientList.
  assert (Hno : forall v, (forall s, v <> JStr s) -> (forall xs, v <> JArr xs) ->
                  forall to, ~ recipientsAccepted v to).
  { intros v' Hs Ha to [(s & -> & _)|(ss & -> & _)]; [by destruct (Hs s)|by eapply Ha]. }
  destruct v as [| |b|x|s|xs|fs]; simpl.
  - right. left. eexists. repeat split; [done|]. by apply Hno.
  - right. left. eexists. repeat split; [done|]. by apply Hno.
  - right. left. destruct b; simpl; eexists; (repeat split; [done|]); by apply Hno.
  - right. left. destruct (negb _); simpl; eexists; (repeat split; [done|]);
      by apply Hno.
  - case_bool_decide as Hs; simpl.
    + right. left. eexists. repeat split; [done|].
      intros to [(s' & [= <-] & Hne & _)|(ss & ? & _)]; done.
    + destruct (isValidEmail (trim s)) eqn:Hv; simpl.
      * left. exists [trim s]. repeat split. left. by exists s.
      * right. left. eexists. repeat split; [done|].
        intros to [(s' & [= <-] & _ & Hv' & _)|(ss & ? & _)]; [congruence|done].
  - destruct (strings_or_not xs) as [[ss ->]|Hns].
    + rewrite checkRecipients_strings, trimAll_strings. simpl.
      destruct (filter (fun s => isValidEmail (trim s) = false) ss) as [|bad rest] eqn:Hf.
      * left. exists (trim <$> ss). repeat split. right. exists ss.
        repeat split. apply Forall_forall. intros s Hin.
        destruct (isValidEmail (trim s)) eqn:Hv; [done|].
        assert (s ∈ filter (fun s => isValidEmail (trim s) = false) ss)
          by (apply list_elem_of_filter; done).
        rewrite Hf in H. by apply elem_of_nil in H.
      * right. left. eexists. repeat split; [done|].
        intros to [(s' & ? & _)|(ss' & Hss & Hall & _)]; [done|].
        injection Hss as Hss. apply fmap_JStr_inj in Hss as <-.
        assert (Hbad : bad ∈ filter (fun s => isValidEmail (trim s) = false) ss)
          by (rewrite Hf; by left).
        apply list_elem_of_filter in Hbad as [Hb Hin].
        rewrite Forall_forall in Hall. specialize (Hall bad Hin). congruence.
    + right. right. exists xs. repeat split; [done|].
      by apply checkRecipients_nonString.
  - right. left. eexists. repeat split; [done|]. by apply Hno.
Qed.

Lemma validateMail_unfold (data : gmap string JsValue) :
  validateMail data
  = (errors ← recipientStage (get data "to");
     let subjectValidation :=
       validateStringField (get data "subject") (lit "Subject") 1 255 in
     let errors := pushInvalid subjectValidation errors in
     let bodyValidation :=
       validateStringField (get data "body") (lit "Message body") 1 10000 in
     let errors := pushInvalid bodyValidation errors in
     if 0 <? Z.of_nat (length errors) then Normal (Invalid errors)
     else
       to ← recipientList (get data "to");
       subject ← fieldValue subjectValidation;
       body ← fieldValue bodyValidation;
       Normal (Valid {| mail_to := to; mail_subject := subject;
                        mail_body := body |})).
Proof. reflexivity. Qed.

Lemma pushInvalid_not_nil v errors : errors <> [] -> pushInvalid v errors <> [].
Proof. destruct v; simpl; [done|]. intros _. apply snoc_not_nil. Qed.

Lemma length_pos_test {A} (l : list A) : l <> [] -> (0 <? Z.of_nat (length l)) = true.
Proof. destruct l; [done|]. intros _. apply nonempty_length_pos. Qed.

Lemma holdsNonString_not_accepted xs to :
  holdsNonString xs -> ~ recipientsAccepted (JArr xs) to.
Proof.
  intros (x & Hin & Hx) [(s & ? & _)|(ss & [= ->] & _)]; [done|].
  apply list_elem_of_fmap in Hin as (s & -> & _). by destruct (Hx s).
Qed.

Lemma validateMail_cases (data : gmap string JsValue) :
  (exists to s b,
     recipientsAccepted (get data "to") to
     /\ fieldAccepted (get data "subject") 1 255 s
     /\ fieldAccepted (get data "body") 1 10000 b
     /\ validateMail data
        = Normal (Valid {| mail_to := to; mail_subject := s; mail_body := b |}))
  \/ (exists errors,
        validateMail data = Normal (Invalid errors) /\ errors <> []
        /\ forall to s b,
             ~ (recipientsAccepted (get data "to") to
                /\ fieldAccepted (get data "subject") 1 255 s
                /\ fieldAccepted (get data "body") 1 10000 b))
  \/ (exists xs, get data "to" = JArr xs /\ holdsNonString xs
                 /\ validateMail data = Throw TypeError).
Proof.
  rewrite validateMail_unfold.
  destruct (recipientStage_cases (get data "to"))
    as [(to & Hto & -> & Hrun)|[(errors & -> & Hne & Hno)|(xs & Hxs & Hns & ->)]].
  - rewrite Hrun. cbn [mbind Completion_bind].
    destruct (validateStringField (get data "subject") (lit "Subject") 1 255)
      as [s|x1] eqn:Hs;
    destruct (validateStringField (get data "body") (lit "Message body") 1 10000)
      as [b|x2] eqn:Hb; cbn [pushInvalid].
    + left. exists to, s, b. apply fieldAccepted_iff in Hs, Hb.
      repeat split; done.
    + right. left. rewrite snoc_length_pos. eexists.
      repeat split; [apply snoc_not_nil|].
      intros ? ? ? (_ & _ & H).
      apply (fieldAccepted_iff _ (lit "Message body")) in H. congruence.
    + right. left. rewrite snoc_length_pos. eexists.
      repeat split; [apply snoc_not_nil|].
      intros ? ? ? (_ & H & _).
      apply (fieldAccepted_iff _ (lit "Subject")) in H. congruence.
    + right. left. rewrite snoc_length_pos. eexists.
      repeat split; [apply snoc_not_nil|].
      intros ? ? ? (_ & H & _).
      apply (fieldAccepted_iff _ (lit "Subject")) in H. congruence.
  - right. left. cbn [mbind Completion_bind]. cbv zeta.
    rewrite length_pos_test by (by do 2 apply pushInvalid_not_nil).
    eexists. repeat split; [by do 2 apply pushInvalid_not_nil|].
    intros to s b (H & _). by destruct (Hno to).
  - right. right. exists xs. done.
Qed.

(** X10. validateMail returns valid data exactly when the recipient is a
    non-empty string with the email pattern after trimming, or an array of
    strings each with that pattern after trimming, the subject is a string
    of 1 to 255 units after trimming and the body one of 1 to 10000; the
    data hold the trimmed recipients, subject and body. *)
Theorem validateMail_valid_iff (data : gmap string JsValue) d :
  validateMail data = Normal (Valid d)
  <-> recipientsAccepted (get data "to") (mail_to d)
      /\ fieldAccepted (get data "subject") 1 255 (mail_subject d)
      /\ fieldAccepted (get data "body") 1 10000 (mail_body d).
Proof.
  destruct (validateMail_cases data)
    as [(to & s & b & Hto & Hs & Hb & Hrun)
       |[(errors & Hrun & _ & Hno)|(xs & Hxs & Hns & Hrun)]]; rewrite Hrun.
  - split.
    + intros [= <-]. done.
    + intros (Hto' & Hs' & Hb'). destruct d as [dt ds db]. simpl in *.
      rewrite (recipientsAccepted_inj _ _ _ Hto Hto'),
        (fieldAccepted_inj _ _ _ _ _ Hs Hs'), (fieldAccepted_inj _ _ _ _ _ Hb Hb').
      reflexivity.
  - split; [discriminate|]. intros H. by destruct (Hno _ _ _ H).
  - split; [discriminate|]. intros (Hto & _). rewrite Hxs in Hto.
    by destruct (holdsNonString_not_accepted _ _ Hns Hto).
Qed.

(** X11. validateMail raises exactly when the recipients are an array
    that holds something other than a string, whatever the subject and the
    body are: the loop calls trim on each element before any other check. *)
Theorem validateMail_throws_iff (data : gmap string JsValue) e :
  validateMail data = Throw e
  <-> e = TypeError
      /\ exists xs, get data "to" = JArr xs /\ holdsNonString xs.
Proof.
  destruct (validateMail_cases data)
    as [(to & s & b & Hto & Hs & Hb & Hrun)
       |[(errors & Hrun & _ & Hno)|(xs & Hxs & Hns & Hrun)]]; rewrite Hrun.
  - split; [discriminate|]. intros (_ & xs & Hxs & Hns). rewrite Hxs in Hto.
    by destruct (holdsNonString_not_accepted _ _ Hns Hto).
  - split; [discriminate|]. intros (_ & xs & Hxs & Hns).
    rewrite validateMail_unfold, Hxs in Hrun. unfold recipientStage in Hrun.
    simpl in Hrun. rewrite (checkRecipients_nonString _ _ Hns) in Hrun.
    discriminate.
  - split; [intros [= <-]; eauto|]. by intros (-> & _).
Qed.

(** ** Escaping *)

Lemma escapeUnit_cases c :
  (isSpecial c = false /\ escapeUnit c = [c])
  \/ (isSpecial c = true
      /\ exists rest, escapeUnit c = 38%N :: rest
                      /\ (3 <= length rest <= 5)%nat
                      /\ Forall (fun x => x <> 60 /\ x <> 62 /\ x <> 34 /\ x <> 39)%N rest).
Proof.
  unfold isSpecial, escapeUnit.
  destruct (c =? 38)%N; [right; split; [done|]; eexists; split; [reflexivity|];
    split; [simpl; lia|repeat constructor; done]|].
  destruct (c =? 60)%N; [right; split; [done|]; eexists; split; [reflexivity|];
    split; [simpl; lia|repeat constructor; done]|].
  destruct (c =? 62)%N; [right; split; [done|]; eexists; split; [reflexivity|];
    split; [simpl; lia|repeat constructor; done]|].
  destruct (c =? 34)%N; [right; split; [done|]; eexists; split; [reflexivity|];
    split; [simpl; lia|repeat constructor; done]|].
  destruct (c =? 39)%N; [right; split; [done|]; eexists; split; [reflexivity|];
    split; [simpl; lia|repeat constructor; done]|].
  left. done.
Qed.

Lemma isSpecial_false c :
  isSpecial c = false -> (c <> 38 /\ c <> 60 /\ c <> 62 /\ c <> 34 /\ c <> 39)%N.
Proof.
  unfold isSpecial. rewrite !orb_false_iff, !N.eqb_neq. tauto.
Qed.

(** X12. The output of sanitizeHtml holds no less-than, greater-than,
    double-quote or apostrophe character, whatever the input. *)
Theorem sanitizeHtml_output_has_no_markup (s : jsstring) :
  Forall (fun c => c <> 60 /\ c <> 62 /\ c <> 34 /\ c <> 39)%N (sanitizeHtml s).
Proof.
  rewrite sanitizeHtml_escapes.
  induction s as [|c s IH]; simpl; [constructor|].
  apply Forall_app. split; [|exact IH].
  destruct (escapeUnit_cases c) as [[Hc ->]|(_ & rest & -> & _ & Hrest)].
  - apply isSpecial_false in Hc. repeat constructor; tauto.
  - constructor; [done|exact Hrest].
Qed.

Lemma escape_length (s : jsstring) :
  (length s <= length (concat (map escapeUnit s)) <= 6 * length s)%nat.
Proof.
  induction s as [|c s IH]; simpl; [lia|]. rewrite length_app.
  destruct (escapeUnit_cases c) as [[_ ->]|(_ & rest & -> & Hr & _)]; simpl; lia.
Qed.

Lemma escape_clean (s : jsstring) :
  htmlClean s -> concat (map escapeUnit s) = s.
Proof.
  induction s as [|c s IH]; intros H; simpl; [done|].
  apply Forall_cons in H as [Hc Hs].
  destruct (escapeUnit_cases c) as [[_ ->]|(Hc' & _)]; [|congruence].
  simpl. by rewrite IH.
Qed.

Lemma escape_length_eq (s : jsstring) :
  length (concat (map escapeUnit s)) = length s -> htmlClean s.
Proof.
  induction s as [|c s IH]; simpl; [constructor|].
  rewrite length_app. intros H.
  pose proof (escape_length s) as Hs.
  destruct (escapeUnit_cases c) as [[Hc Hu]|(_ & rest & Hu & Hr & _)];
    rewrite Hu in H; simpl in H.
  - constructor; [done|]. apply IH. lia.
  - lia.
Qed.

(** X13. sanitizeHtml never shortens a string and makes it at most six
    times as long; it leaves a string unchanged exactly when the string
    holds none of the five characters. *)
Theorem sanitizeHtml_length_and_fixpoints (s : jsstring) :
  (length s <= length (sanitizeHtml s) <= 6 * length s)%nat
  /\ (sanitizeHtml s = s <-> htmlClean s)
  /\ (length (sanitizeHtml s) = length s <-> htmlClean s).
Proof.
  rewrite sanitizeHtml_escapes.
  split; [apply escape_length|]. split; split.
  - intros H. apply escape_length_eq. by rewrite H.
  - apply escape_clean.
  - apply escape_length_eq.
  - intros H. by rewrite escape_clean.
Qed.

Lemma sanitizeHtml_fixpoint (s : jsstring) : sanitizeHtml s = s <-> htmlClean s.
Proof.
  rewrite sanitizeHtml_escapes. split.
  - intros H. apply escape_length_eq. by rewrite H.
  - apply escape_clean.
Qed.

Lemma sanitizeHtml_amp (s : jsstring) :
  ~ htmlClean s -> 38%N ∈ sanitizeHtml s.
Proof.
  rewrite sanitizeHtml_escapes. induction s as [|c s IH]; simpl.
  - intros H. destruct H. constructor.
  - intros H. apply elem_of_app.
    destruct (escapeUnit_cases c) as [[Hc Hu]|(_ & rest & -> & _)].
    + right. apply IH. intros Hs. apply H. by constructor.
    + left. by left.
Qed.

Lemma htmlClean_dec (s : jsstring) : htmlClean s \/ ~ htmlClean s.
Proof.
  unfold htmlClean. induction s as [|c s [IH|IH]].
  - left. constructor.
  - destruct (isSpecial c) eqn:Hc.
    + right. intros H. apply Forall_cons in H as [H _]. congruence.
    + left. by constructor.
  - right. intros H. apply Forall_cons in H as [_ H]. done.
Qed.

(** X14. The admin page escapes what the handlers stored escaped: for a
    stored free-text value, htmlEscape gives the value sanitised twice,
    which is the stored text itself exactly when the text entered holds
    none of the five characters. *)
Theorem admin_page_escapes_twice (toString : JsValue -> jsstring) (s : jsstring) :
  (forall t, toString (JStr t) = t) ->
  htmlEscape toString (JStr (sanitizeHtml s)) = sanitizeHtml (sanitizeHtml s)
  /\ (htmlEscape toString (JStr (sanitizeHtml s)) = sanitizeHtml s <-> htmlClean s).
Proof.
  intros Hstr.
  assert (Hesc : htmlEscape toString (JStr (sanitizeHtml s))
                 = sanitizeHtml (sanitizeHtml s)).
  { unfold htmlEscape. rewrite Hstr. reflexivity. }
  split; [exact Hesc|]. rewrite Hesc. split.
  - intros H. destruct (htmlClean_dec s) as [Hc|Hc]; [done|].
    apply sanitizeHtml_fixpoint in H.
    apply sanitizeHtml_amp in Hc.
    unfold htmlClean in H. rewrite Forall_forall in H.
    specialize (H _ Hc). discriminate.
  - intros H. apply sanitizeHtml_fixpoint in H. by rewrite !H.
Qed.

Lemma admin_page_escapes_twice_witness :
  htmlEscape textOnly (JStr (sanitizeHtml (lit "Tom & Jerry")))
  = lit "Tom &amp;amp; Jerry".
Proof.
  rewrite (proj1 (admin_page_escapes_twice textOnly (lit "Tom & Jerry")
                    (fun t => eq_refl))).
  vm_compute. reflexivity.
Defined.

(** ** The tables are append-only *)

Lemma keysBelow_insert {R} (rows : gmap Z R) last r :
  keysBelow rows last -> 0 <= last ->
  keysBelow (<[last + 1 := r]> rows) (last + 1).
Proof.
  intros H Hl id Hid. apply lookup_insert_is_Some in Hid as [<-|[_ Hid]]; [lia|].
  specialize (H id Hid). lia.
Qed.

Lemma keysBelow_nonneg {R} (rows : gmap Z R) last id :
  keysBelow rows last -> is_Some (rows !! id) -> id <> last + 1.
Proof. intros H Hid. specialize (H id Hid). lia. Qed.

Lemma keysBelow_keep {R} (rows : gmap Z R) last r id row :
  keysBelow rows last -> rows !! id = Some row ->
  <[last + 1 := r]> rows !! id = Some row.
Proof.
  intros H Hid. rewrite lookup_insert_ne; [done|].
  intros <-. eapply keysBelow_nonneg; eauto.
Qed.

Lemma handle_written route env w db (reqBody : gmap string JsValue) :
  Written db (fst (handle route env w db reqBody)).
Proof.
  destruct route; simpl.
  - unfold register.
    destruct (validateRegistration reqBody) as [[data|errors]|e];
      [|by apply WroteNothing..].
    unfold insertRegistration. destruct (dbError w); [by apply WroteNothing|].
    simpl. by eapply WroteRegistration.
  - unfold contact.
    destruct (validateContact reqBody) as [[data|errors]|e];
      [|by apply WroteNothing..].
    unfold insertContact. destruct (dbError w); [by apply WroteNothing|].
    simpl. by eapply WroteContact.
  - unfold score.
    destruct (validateScore reqBody) as [[data|errors]|e];
      [|by apply WroteNothing..].
    unfold insertScore. destruct (dbError w); [by apply WroteNothing|].
    simpl. by eapply WroteScore.
  - unfold send_mail.
    destruct (validateMail reqBody) as [[data|errors]|e];
      [|by apply WroteNothing..].
    unfold insertMail. destruct (dbError w); [by apply WroteNothing|].
    simpl. destruct (envSet env "SMTP_HOST") as [host|];
      [destruct (sendMail w _ _)|]; simpl;
      (eapply WroteMail; simpl; try done; by rewrite alter_insert_eq).
Qed.

Lemma written_wellKeyed db db' :
  Written db db' -> wellKeyed db -> wellKeyed db'.
Proof.
  intros Hw ((Hr & Hc & Hs & Hm) & (? & ? & ? & ?)). unfold wellKeyed.
  destruct Hw as [->|row E1 E2 E3 E4 E5 E6 E7 E8|row E1 E2 E3 E4 E5 E6 E7 E8
                 |row E1 E2 E3 E4 E5 E6 E7 E8|row E1 E2 E3 E4 E5 E6 E7 E8];
    [done|..]; rewrite E1, E2, E3, E4, E5, E6, E7, E8;
    split_and!; try done; try lia; by apply keysBelow_insert.
Qed.

Lemma written_keepsRows db db' :
  Written db db' -> wellKeyed db -> keepsRows db db'.
Proof.
  intros Hw ((Hr & Hc & Hs & Hm) & _). unfold keepsRows.
  destruct Hw as [->|row E1 E2 E3 E4 E5 E6 E7 E8|row E1 E2 E3 E4 E5 E6 E7 E8
                 |row E1 E2 E3 E4 E5 E6 E7 E8|row E1 E2 E3 E4 E5 E6 E7 E8];
    [done|..]; rewrite ?E1, ?E3, ?E5, ?E7;
    split_and!; try done; intros id r Hid; by eapply keysBelow_keep.
Qed.

Lemma keepsRows_trans db1 db2 db3 :
  keepsRows db1 db2 -> keepsRows db2 db3 -> keepsRows db1 db3.
Proof.
  intros (A1 & A2 & A3 & A4) (B1 & B2 & B3 & B4). unfold keepsRows.
  split_and!; eauto.
Qed.

Lemma wellKeyed_emptyDb : wellKeyed emptyDb.
Proof.
  unfold wellKeyed, keysBelow. simpl.
  split_and!; try done; intros id [r Hr]; by rewrite lookup_empty in Hr.
Qed.

(** X15. Starting from a database whose keys lie within the counters (the
    empty database is one), every sequence of requests to the four POST
    routes leaves a database whose keys lie within the counters. *)
Theorem requests_keep_keys_within_counters env db
    (requests : list (World * Route * gmap string JsValue)) :
  wellKeyed db -> wellKeyed (serve env db requests).
Proof.
  revert db. induction requests as [|[[w route] reqBody] rest IH]; intros db H.
  - exact H.
  - simpl. apply IH. eapply written_wellKeyed; [apply handle_written|exact H].
Qed.

Lemma requests_keep_keys_within_counters_witness :
  wellKeyed (serve smtpEnv emptyDb
               [(quietWorld, RegisterRoute, registrationRequest);
                (refusingWorld, SendMailRoute, mailRequest)]).
Proof.
  apply (requests_keep_keys_within_counters smtpEnv emptyDb). exact wellKeyed_emptyDb.
Defined.

(** X16. The tables are append-only: no sequence of requests to the four
    POST routes removes or changes a row that was already stored. *)
Theorem requests_never_change_stored_rows env db
    (requests : list (World * Route * gmap string JsValue)) :
  wellKeyed db -> keepsRows db (serve env db requests).
Proof.
  revert db. induction requests as [|[[w route] reqBody] rest IH]; intros db H.
  - unfold keepsRows. split_and!; done.
  - simpl. eapply keepsRows_trans.
    + eapply written_keepsRows; [apply handle_written|exact H].
    + apply IH. eapply written_wellKeyed; [apply handle_written|exact H].
Qed.

Lemma requests_never_change_stored_rows_witness :
  keepsRows (fst (register quietWorld emptyDb registrationRequest))
    (serve smtpEnv (fst (register quietWorld emptyDb registrationRequest))
       [(quietWorld, RegisterRoute, registrationRequest);
        (refusingWorld, SendMailRoute, mailRequest)]).
Proof.
  apply (requests_never_change_stored_rows smtpEnv).
  apply (written_wellKeyed emptyDb).
  - apply (handle_written RegisterRoute ∅ quietWorld emptyDb registrationRequest).
  - exact wellKeyed_emptyDb.
Defined.

Ltac not_200 :=
  match goal with
  | H : json _ _ = Responded ?r, H200 : status ?r = 200 |- _ =>
      unfold json in H; injection H as <-; simpl in H200; discriminate H200
  | H : Unhandled _ = Responded _ |- _ => discriminate H
  end.

Ltac is_200 id :=
  match goal with
  | H : json 200 ?fields = Responded ?r |- _ =>
      unfold json in H; injection H as <-; exists id, (obj fields);
      split; [reflexivity|]; split; [lookup_obj|]
  end.

(** X17. When a POST handler answers 200, the id in the response is the
    next key of its table, a row is stored under that key, and no row was
    stored under it before. *)
Theorem success_reports_the_new_key route env w db
    (reqBody : gmap string JsValue) r :
  wellKeyed db ->
  snd (handle route env w db reqBody) = Responded r ->
  status r = 200 ->
  exists id o,
    body r = Json o
    /\ o !! "id" = Some (JNum (number_of_Z id))
    /\ id = lastKey route db + 1
    /\ rowStored route (fst (handle route env w db reqBody)) id
    /\ ~ rowStored route db id.
Proof.
  intros ((Hr & Hc & Hs & Hm) & _) Hout H200.
  destruct route; simpl in *.
  - unfold register, insertRegistration in *.
    destruct (validateRegistration reqBody) as [[data|errors]|e];
      simpl in *; try not_200.
    destruct (dbError w); simpl in *; try not_200.
    is_200 (registrations_seq db + 1). split; [done|]. simpl. split.
    + rewrite lookup_insert_eq. eauto.
    + intros H. exact (keysBelow_nonneg _ _ _ Hr H eq_refl).
  - unfold contact, insertContact in *.
    destruct (validateContact reqBody) as [[data|errors]|e];
      simpl in *; try not_200.
    destruct (dbError w); simpl in *; try not_200.
    is_200 (contacts_seq db + 1). split; [done|]. simpl. split.
    + rewrite lookup_insert_eq. eauto.
    + intros H. exact (keysBelow_nonneg _ _ _ Hc H eq_refl).
  - unfold score, insertScore in *.
    destruct (validateScore reqBody) as [[data|errors]|e];
      simpl in *; try not_200.
    destruct (dbError w); simpl in *; try not_200.
    is_200 (scores_seq db + 1). split; [done|]. simpl. split.
    + rewrite lookup_insert_eq. eauto.
    + intros H. exact (keysBelow_nonneg _ _ _ Hs H eq_refl).
  - unfold send_mail, insertMail in *.
    destruct (validateMail reqBody) as [[data|errors]|e];
      simpl in *; try not_200.
    destruct (dbError w); simpl in *; try not_200.
    destruct (envSet env "SMTP_HOST") as [host|];
      [destruct (sendMail w _ _)|]; simpl in *; try not_200;
      (is_200 (mails_seq db + 1); split; [done|]; simpl; split;
       [rewrite lookup_alter_eq, lookup_insert_eq; eauto
       |intros H; exact (keysBelow_nonneg _ _ _ Hm H eq_refl)]).
Qed.

Lemma success_reports_the_new_key_witness :
  exists id o,
    Json (obj [("success", JBool true); ("id", JNum (number_of_Z 1));
               ("message", JStr (lit "Registration successful."))]) = Json o
    /\ o !! "id" = Some (JNum (number_of_Z id))
    /\ id = 0 + 1
    /\ is_Some (registrations (fst (register quietWorld emptyDb registrationRequest)) !! id)
    /\ ~ is_Some (registrations emptyDb !! id).
Proof.
  apply (success_reports_the_new_key RegisterRoute ∅ quietWorld emptyDb
           registrationRequest
           {| status := 200; headers := ∅;
              body := Json (obj [("success", JBool true); ("id", JNum (number_of_Z 1));
                                 ("message", JStr (lit "Registration successful."))]) |}).
  - exact wellKeyed_emptyDb.
  - vm_compute. reflexivity.
  - reflexivity.
Defined.

(** X18. A request that is answered 400, or that raises, writes nothing;
    one answered 200 has inserted a row into the route's table; one
    answered 500 has written nothing, except that the mail route keeps
    the record of a mail whose transport failed. *)
Theorem only_accepted_requests_write route env w db
    (reqBody : gmap string JsValue) :
  let res := handle route env w db reqBody in
  match snd res with
  | Responded r =>
      (status r = 200
       /\ exists rest,
            journal (fst res)
            = journal db ++ InsertInto (tableOf route) (lastKey route db + 1) :: rest)
      \/ (status r = 400 /\ fst res = db)
      \/ (status r = 500
          /\ (fst res = db
              \/ (route = SendMailRoute
                  /\ journal (fst res)
                     = journal db ++ [InsertInto "mails" (mails_seq db + 1);
                                      UpdateMail (mails_seq db + 1) (lit "failed")])))
  | Unhandled _ => fst res = db
  end.
Proof.
  destruct route; simpl.
  - unfold register, insertRegistration.
    destruct (validateRegistration reqBody) as [[data|errors]|e]; simpl; auto.
    destruct (dbError w); simpl; auto. left. split; [done|]. by exists [].
  - unfold contact, insertContact.
    destruct (validateContact reqBody) as [[data|errors]|e]; simpl; auto.
    destruct (dbError w); simpl; auto. left. split; [done|]. by exists [].
  - unfold score, insertScore.
    destruct (validateScore reqBody) as [[data|errors]|e]; simpl; auto.
    destruct (dbError w); simpl; auto. left. split; [done|]. by exists [].
  - unfold send_mail, insertMail.
    destruct (validateMail reqBody) as [[data|errors]|e]; simpl; auto.
    destruct (dbError w); simpl; auto.
    destruct (envSet env "SMTP_HOST") as [host|];
      [destruct (sendMail w _ _)|]; simpl.
    + right. right. split; [done|]. right. split; [done|].
      by rewrite <- app_assoc.
    + left. split; [done|]. eexists. by rewrite <- app_assoc.
    + left. split; [done|]. eexists. by rewrite <- app_assoc.
Qed.

(** ** The score and the mail handlers, end to end *)

(** X19. The score handler stores an accepted score, a number that is not
    NaN, as a number equal to it (the same number when it is not a zero),
    and the details trimmed and unescaped; details that are empty or only
    white space are stored as null.  The response is 200 with the id of the
    new row. *)
Theorem score_stores_trimmed_details w db (reqBody : gmap string JsValue) x s :
  scoreAccepted (get reqBody "score") x ->
  PrimFloat.is_nan x = false ->
  get reqBody "details" = JStr s ->
  strlen (trim s) <= 1000 ->
  dbError w = None ->
  (exists row,
     scores (fst (score w db reqBody)) !! (scores_seq db + 1) = Some row
     /\ PrimFloat.eqb (s_score row) x = true
     /\ (PrimFloat.is_zero x = false -> s_score row = x)
     /\ s_details row
        = (if bool_decide (trim s = []) then None else Some (trim s))
     /\ s_receivedAt row = now w)
  /\ snd (score w db reqBody)
     = json 200 [("success", JBool true);
                 ("id", JNum (number_of_Z (scores_seq db + 1)));
                 ("message", JStr (lit "Score recorded successfully."))].
Proof.
  intros Hx Hnan Hd Hlen Hdb.
  assert (Ht : tooLong (get reqBody "details") 1000 = false).
  { rewrite Hd. unfold tooLong.
    destruct (Z.gtb_spec (strlen (trim s)) 1000); [lia|]. apply andb_false_r. }
  assert (Heq : PrimFloat.eqb x x = true).
  { unfold PrimFloat.is_nan in Hnan. by apply negb_false_iff in Hnan. }
  unfold score, insertScore.
  rewrite (validateScore_accepted reqBody x Hx Ht), Hd, Hdb.
  destruct s as [|c s].
  - simpl. rewrite lookup_insert_eq.
    split; [eexists; split; [reflexivity|]; simpl; by split_and!|reflexivity].
  - simpl. rewrite lookup_insert_eq.
    split; [eexists; split; [reflexivity|]; simpl; by split_and!|reflexivity].
Qed.

Lemma score_stores_trimmed_details_witness :
  exists row,
    scores (fst (score quietWorld emptyDb
                   (obj [("score", JNum (PrimFloat.opp 0));
                         ("details", JStr (lit "   "))])))
      !! 1 = Some row
    /\ PrimFloat.eqb (s_score row) (PrimFloat.opp 0) = true
    /\ (PrimFloat.is_zero (PrimFloat.opp 0) = false
        -> s_score row = PrimFloat.opp 0)
    /\ s_details row = None
    /\ s_receivedAt row = now quietWorld.
Proof.
  apply (proj1 (score_stores_trimmed_details quietWorld emptyDb
                  (obj [("score", JNum (PrimFloat.opp 0));
                        ("details", JStr (lit "   "))])
                  (PrimFloat.opp 0) (lit "   ")
                  ltac:(vm_compute; done) eq_refl eq_refl
                  ltac:(vm_compute; discriminate) eq_refl)).
Defined.

(** X20. A valid mail request with SMTP configured whose transport call
    succeeds, the storage engine accepting the INSERT: the transport is
    given the trimmed recipients, subject and body unescaped, the record is
    stored with the escaped subject and body and updated to status 'sent'
    with the time of sending, and the response is 200 with sent true. *)
Theorem mail_delivered_is_marked_sent env w db (reqBody : gmap string JsValue)
    data smtpHost :
  validateMail reqBody = Normal (Valid data) ->
  envSet env "SMTP_HOST" = Some smtpHost ->
  dbError w = None ->
  sendMail w (createTransport env smtpHost)
    {| msg_from := default (lit "noreply@example.com") (envSet env "SMTP_FROM");
       msg_to := join (lit ",") (mail_to data);
       msg_subject := mail_subject data;
       msg_text := mail_body data |} = None ->
  let id := mails_seq db + 1 in
  snd (send_mail env w db reqBody)
    = json 200 [("success", JBool true); ("id", JNum (number_of_Z id));
                ("sent", JBool true);
                ("message", JStr (lit "Email sent successfully."))]
  /\ mails (fst (send_mail env w db reqBody)) !! id
     = Some {| m_recipients := join (lit ",") (mail_to data);
               m_subject := sanitizeHtml (mail_subject data);
               m_body := sanitizeHtml (mail_body data);
               m_status := lit "sent";
               m_sentAt := Some (now w);
               m_error := None |}
  /\ journal (fst (send_mail env w db reqBody))
     = journal db ++ [InsertInto "mails" id; UpdateMail id (lit "sent")].
Proof.
  intros Hv Hhost Hdb Hsend id.
  destruct (send_mail_valid env w db reqBody data Hv Hdb)
    as (db1 & _ & Hm & Hj & Hrun).
  fold id in Hm, Hj, Hrun. rewrite Hhost in Hrun.
  assert (Hmsg : smtpMessage env data
                 = {| msg_from := default (lit "noreply@example.com")
                                    (envSet env "SMTP_FROM");
                      msg_to := join (lit ",") (mail_to data);
                      msg_subject := mail_subject data;
                      msg_text := mail_body data |}).
  { unfold smtpMessage. by destruct (envSet env "SMTP_FROM"). }
  rewrite Hmsg, Hsend in Hrun. rewrite Hrun. simpl.
  split; [reflexivity|]. split.
  - rewrite lookup_alter_eq, Hm, lookup_insert_eq. reflexivity.
  - rewrite Hj, <- app_assoc. reflexivity.
Qed.

Lemma mail_delivered_is_marked_sent_witness :
  snd (send_mail smtpEnv quietWorld emptyDb mailRequest)
    = json 200 [("success", JBool true); ("id", JNum (number_of_Z 1));
                ("sent", JBool true);
                ("message", JStr (lit "Email sent successfully."))]
  /\ mails (fst (send_mail smtpEnv quietWorld emptyDb mailRequest)) !! 1
     = Some {| m_recipients := lit "a@b.co";
               m_subject := sanitizeHtml (lit "Hi <all>");
               m_body := sanitizeHtml (lit "Tom & Jerry");
               m_status := lit "sent";
               m_sentAt := Some (now quietWorld);
               m_error := None |}
  /\ journal (fst (send_mail smtpEnv quietWorld emptyDb mailRequest))
     = [InsertInto "mails" 1; UpdateMail 1 (lit "sent")].
Proof.
  apply (mail_delivered_is_marked_sent smtpEnv quietWorld emptyDb mailRequest
           mailRequestData (lit "smtp.example.com")).
  - vm_compute. reflexivity.
  - vm_compute. reflexivity.
  - reflexivity.
  - reflexivity.
Defined.

(** ** The client-side score, further *)

Lemma calculateScore_complete (elements : gmap string jsstring) (answers : list Z) :
  length answers = 12%nat ->
  (forall i a, answers !! i = Some a ->
     1 <= a <= 4 /\ elements !! questionName (S i) = Some (showInt a)) ->
  12 <= sumZ answers <= 48
  /\ exists state container,
       calculateScore elements
       = Scored state container
           (PrimFloat.div (number_of_Z (sumZ answers)) (number_of_Z 12)).
Proof.
  intros Hlen H.
  assert (Hsum : 12 <= sumZ answers <= 48).
  { pose proof (sumZ_bounds answers (fun i a Ha => proj1 (H i a Ha))) as Hb.
    rewrite Hlen in Hb. lia. }
  split; [exact Hsum|].
  assert (Htally : tally elements = (number_of_Z (sumZ answers), 12)).
  { unfold tally. change (Z.to_nat questionsCount) with 12%nat. rewrite <- Hlen.
    change 0%float with (number_of_Z 0).
    rewrite (tally_answers elements answers 1 0 0); [|exact H|lia|lia].
    rewrite Hlen. reflexivity. }
  destruct (band_of_total (sumZ answers) Hsum) as (advice & bg & fg & Hband).
  unfold calculateScore. rewrite Htally.
  change (12 <? questionsCount) with false. cbv iota.
  rewrite Hband. eauto.
Qed.

Lemma average_in_range t :
  12 <= t <= 48 ->
  PrimFloat.ltb (PrimFloat.div (number_of_Z t) (number_of_Z 12)) 0 = false
  /\ PrimFloat.ltb 4 (PrimFloat.div (number_of_Z t) (number_of_Z 12)) = false
  /\ PrimFloat.leb 1 (PrimFloat.div (number_of_Z t) (number_of_Z 12)) = true.
Proof.
  intros Ht.
  assert (exists n, t = 12 + Z.of_nat n /\ (n <= 36)%nat) as (n & -> & Hn)
    by (exists (Z.to_nat (t - 12)); lia).
  do 37 (destruct n as [|n]; [vm_compute; done|]); lia.
Qed.

(** X21. The average the client posts for twelve answers from 1 to 4 lies
    between 1 and 4, so the server's validateScore accepts it and, the
    storage engine accepting the INSERT, the score handler stores it as
    posted and answers 200. *)
Theorem posted_average_is_accepted (elements : gmap string jsstring)
    (answers : list Z) :
  length answers = 12%nat ->
  (forall i a, answers !! i = Some a ->
     1 <= a <= 4 /\ elements !! questionName (S i) = Some (showInt a)) ->
  exists state container posted,
    calculateScore elements = Scored state container posted
    /\ PrimFloat.leb 1 posted = true /\ PrimFloat.leb posted 4 = true
    /\ validateScore {[ "score" := JNum posted ]}
       = Normal (Valid {| sc_score := posted; sc_details := None |})
    /\ forall w db,
         dbError w = None ->
         exists r row,
           snd (score w db {[ "score" := JNum posted ]}) = Responded r
           /\ status r = 200
           /\ scores (fst (score w db {[ "score" := JNum posted ]}))
                !! (scores_seq db + 1) = Some row
           /\ s_score row = posted.
Proof.
  intros Hlen H.
  destruct (calculateScore_complete elements answers Hlen H)
    as (Hsum & state & container & Hrun).
  destruct (average_in_range _ Hsum) as (H0 & H4 & H1).
  set (posted := PrimFloat.div (number_of_Z (sumZ answers)) (number_of_Z 12)) in *.
  assert (Hv : validateScore {[ "score" := JNum posted ]}
               = Normal (Valid {| sc_score := posted; sc_details := None |})).
  { unfold validateScore, get. rewrite lookup_singleton_eq.
    rewrite (lookup_singleton_ne "score" "details") by done.
    simpl. rewrite H0, H4. reflexivity. }
  exists state, container, posted. split; [exact Hrun|]. split; [exact H1|]. split.
  { assert (exists n, sumZ answers = 12 + Z.of_nat n /\ (n <= 36)%nat) as (n & Hn & Hle)
      by (exists (Z.to_nat (sumZ answers - 12)); lia).
    subst posted. rewrite Hn.
    do 37 (destruct n as [|n]; [vm_compute; done|]); lia. }
  split; [exact Hv|].
  intros w db Hdb. unfold score, insertScore. rewrite Hv, Hdb. simpl.
  eexists _, _. split; [reflexivity|]. split; [reflexivity|].
  rewrite lookup_insert_eq. split; reflexivity.
Qed.

Lemma posted_average_is_accepted_witness :
  exists state container posted,
    calculateScore (formOf healthyAnswers) = Scored state container posted
    /\ PrimFloat.leb 1 posted = true /\ PrimFloat.leb posted 4 = true
    /\ validateScore {[ "score" := JNum posted ]}
       = Normal (Valid {| sc_score := posted; sc_details := None |}).
Proof.
  destruct (posted_average_is_accepted (formOf healthyAnswers) healthyAnswers)
    as (state & container & posted & Hrun & H1 & H4 & Hv & _).
  - reflexivity.
  - intros i a Ha.
    do 12 (destruct i as [|i];
           [injection Ha as <-; split; [lia|vm_compute; reflexivity]|]).
    discriminate Ha.
  - exists state, container, posted. done.
Defined.

Lemma unanswered_dec (elements : gmap string jsstring) i :
  unanswered elements i
  \/ (~ unanswered elements i
      /\ forall acc, (tallyStep elements acc i).2 = acc.2 + 1).
Proof.
  unfold unanswered, tallyStep.
  destruct (elements !! questionName i) as [v|]; [|by left; left].
  destruct v as [|c v]; [by left; right|].
  right. split; [intros [?|?]; discriminate|]. by intros [t n].
Qed.

Lemma tally_short (elements : gmap string jsstring) l acc :
  (fold_left (tallyStep elements) l acc).2 < acc.2 + Z.of_nat (length l) ->
  exists i, In i l /\ unanswered elements i.
Proof.
  revert acc. induction l as [|i l IH]; intros acc H; simpl in *; [lia|].
  destruct (unanswered_dec elements i) as [Hu|[_ Hstep]]; [eauto|].
  destruct (IH (tallyStep elements acc i)) as (j & Hj & Hu); [|eauto].
  rewrite Hstep. lia.
Qed.

(** X22. calculateScore shows the warning exactly when one of the twelve
    questions has no answer; with all twelve answered it always shows a
    result, whatever the values are. *)
Theorem calculateScore_warns_iff (elements : gmap string jsstring) :
  (exists container, calculateScore elements = Warned container)
  <-> exists i, (1 <= i <= 12)%nat /\ unanswered elements i.
Proof.
  unfold calculateScore, tally. change (Z.to_nat questionsCount) with 12%nat.
  split.
  - intros [c Hc].
    destruct (fold_left (tallyStep elements) (seq 1 12) (0%float, 0))
      as [totalScore answeredQuestions] eqn:Hfold.
    destruct (Z.ltb_spec answeredQuestions questionsCount) as [Hlt|Hge].
    + destruct (tally_short elements (seq 1 12) (0%float, 0)) as (i & Hin & Hu).
      { rewrite Hfold. simpl. unfold questionsCount in Hlt. lia. }
      exists i. split; [|done]. apply in_seq in Hin. lia.
    + destruct (band _) as [[[? ?] ?] ?]. discriminate.
  - intros (i & Hi & Hu).
    assert (Hin : In i (seq 1 12)) by (apply in_seq; lia).
    pose proof (tally_count_lt elements (seq 1 12) (0%float, 0) i Hin Hu) as Hlt.
    destruct (fold_left (tallyStep elements) (seq 1 12) (0%float, 0))
      as [totalScore answeredQuestions].
    assert (answeredQuestions < questionsCount) as Hc
      by (unfold questionsCount; simpl in Hlt; lia).
    apply Z.ltb_lt in Hc. rewrite Hc. eauto.
Qed.

Lemma fold_left_agree {A B} (f g : A -> B -> A) l a :
  (forall acc i, In i l -> f acc i = g acc i) ->
  fold_left f l a = fold_left g l a.
Proof.
  revert a. induction l as [|i l IH]; intros a H; simpl; [done|].
  rewrite H by (by left). apply IH. intros acc j Hj. apply H. by right.
Qed.

(** X23. calculateScore reads the controls q1 to q12 and nothing else:
    two forms that agree on those twelve give the same outcome. *)
Theorem calculateScore_reads_only_the_questions
    (elements elements' : gmap string jsstring) :
  (forall i, (1 <= i <= 12)%nat ->
     elements !! questionName i = elements' !! questionName i) ->
  calculateScore elements = calculateScore elements'.
Proof.
  intros H. unfold calculateScore, tally.
  rewrite (fold_left_agree (tallyStep elements) (tallyStep elements')); [done|].
  intros acc i Hin. unfold tallyStep. rewrite H; [done|].
  change (Z.to_nat questionsCount) with 12%nat in Hin. apply in_seq in Hin. lia.
Qed.

Lemma calculateScore_reads_only_the_questions_witness :
  calculateScore (<["email" := lit "ann@example.org"]> (formOf healthyAnswers))
  = calculateScore (formOf healthyAnswers).
Proof.
  apply (calculateScore_reads_only_the_questions
           (<["email" := lit "ann@example.org"]> (formOf healthyAnswers))
           (formOf healthyAnswers)).
  intros i Hi. apply lookup_insert_ne.
  destruct Hi as [H1 H12].
  do 13 (destruct i as [|i]; [first [lia|vm_compute; discriminate]|]). lia.
Defined.

(** ** The forms, from submission to feedback *)

Lemma get_bodyOf (formData : gmap string jsstring) k :
  get (bodyOf formData) k = JUndefined
  \/ exists s, get (bodyOf formData) k = JStr s.
Proof.
  unfold get, bodyOf. rewrite lookup_fmap.
  destruct (formData !! k); simpl; eauto.
Qed.

Lemma validateRegistration_form (formData : gmap string jsstring) :
  (exists errors, validateRegistration (bodyOf formData) = Normal (Invalid errors))
  \/ (exists d, validateRegistration (bodyOf formData) = Normal (Valid d)).
Proof.
  destruct (validateRegistration_cases (bodyOf formData))
    as [(errors & He & _)|(n & e & c & _ & _ & _ & _ & Hrun)]; [eauto|].
  right. rewrite Hrun.
  destruct (get_bodyOf formData "address") as [->|[s ->]]; simpl; [eauto|].
  destruct (negb _); simpl; eauto.
Qed.

Lemma get_obj2 k1 v1 k2 v2 k :
  get (obj [(k1, v1); (k2, v2)]) k
  = if bool_decide (k1 = k) then v1 else if bool_decide (k2 = k) then v2 else JUndefined.
Proof.
  unfold get, obj. cbn [list_to_map foldr uncurry].
  rewrite !lookup_insert, lookup_empty.
  repeat case_decide; repeat case_bool_decide; done.
Qed.

Lemma get_obj3 k1 v1 k2 v2 k3 v3 k :
  get (obj [(k1, v1); (k2, v2); (k3, v3)]) k
  = if bool_decide (k1 = k) then v1 else if bool_decide (k2 = k) then v2
    else if bool_decide (k3 = k) then v3 else JUndefined.
Proof.
  unfold get, obj. cbn [list_to_map foldr uncurry].
  rewrite !lookup_insert, lookup_empty.
  repeat case_decide; repeat case_bool_decide; done.
Qed.

Ltac feedback Hstr :=
  unfold registrationFeedback, contactFeedback, deliver, replyOk, failureText, json;
  cbn [reply_json reply_status reply_statusText body status];
  rewrite ?get_obj2, ?get_obj3; cbn [bool_decide decide]; simpl;
  rewrite ?Hstr; reflexivity.

(** X24. A registration submitted from the site's form, where every field
    is a string, never makes the handler raise.  The user is told the
    registration was submitted, and the form is reset, exactly when a row
    was inserted; on a validation failure the user is shown only the status
    text, not the validation errors; on a storage failure the server's
    message. *)
Theorem registration_form_feedback (toString : JsValue -> jsstring)
    (reason : Z -> jsstring) w db (formData : gmap string jsstring) :
  (forall t, toString (JStr t) = t) ->
  let res := register w db (bodyOf formData) in
  exists r,
    snd res = Responded r
    /\ let fb := registrationFeedback toString (deliver reason r) in
       (status r = 200
        /\ fb = {| shown := lit "Registration submitted " ++ [8212%N]
                              ++ lit " thank you!";
                   formReset := true |}
        /\ journal (fst res)
           = journal db ++ [InsertInto "registrations" (registrations_seq db + 1)])
       \/ (status r = 400
           /\ fb = {| shown := lit "Submission failed: " ++ reason 400;
                      formReset := false |}
           /\ fst res = db)
       \/ (status r = 500
           /\ fb = {| shown := lit "Submission failed: Could not save registration.";
                      formReset := false |}
           /\ fst res = db).
Proof.
  intros Hstr. simpl. unfold register, insertRegistration.
  destruct (validateRegistration_form formData) as [[errors ->]|[d ->]].
  - eexists. split; [reflexivity|]. right. left.
    split; [reflexivity|]. split; [|reflexivity]. feedback Hstr.
  - destruct (dbError w); cbn [mbind fst snd].
    + eexists. split; [reflexivity|]. right. right.
      split; [reflexivity|]. split; [|reflexivity]. feedback Hstr.
    + eexists. split; [reflexivity|]. left.
      split; [reflexivity|]. split; [|reflexivity]. feedback Hstr.
Qed.

Lemma registration_form_feedback_witness :
  exists r,
    snd (register quietWorld emptyDb (bodyOf {[ "name" := lit "Ann" ]})) = Responded r
    /\ status r = 400
    /\ registrationFeedback textOnly (deliver reasonPhrase r)
       = {| shown := lit "Submission failed: Bad Request"; formReset := false |}.
Proof.
  destruct (registration_form_feedback textOnly reasonPhrase quietWorld emptyDb
              {[ "name" := lit "Ann" ]} (fun t => eq_refl))
    as (r & Hr & H).
  exists r. split; [exact Hr|].
  assert (Hs : status r = 400).
  { vm_compute in Hr. injection Hr as <-. reflexivity. }
  split; [exact Hs|].
  destruct H as [(H200 & _)|[(_ & Hfb & _)|(H500 & _)]].
  - rewrite Hs in H200. discriminate H200.
  - exact Hfb.
  - rewrite Hs in H500. discriminate H500.
Defined.

(** X25. A message submitted from the contact form: the user is told the
    message was sent, and the form is reset, exactly when a row was
    inserted; on a validation failure the user is shown only the status
    text; on a storage failure the server's message. *)
Theorem contact_form_feedback (toString : JsValue -> jsstring)
    (reason : Z -> jsstring) w db (formData : gmap string jsstring) :
  (forall t, toString (JStr t) = t) ->
  let res := contact w db (bodyOf formData) in
  exists r,
    snd res = Responded r
    /\ let fb := contactFeedback toString (deliver reason r) in
       (status r = 200
        /\ fb = {| shown := lit "Message sent " ++ [8212%N] ++ lit " thank you!";
                   formReset := true |}
        /\ journal (fst res)
           = journal db ++ [InsertInto "contacts" (contacts_seq db + 1)])
       \/ (status r = 400
           /\ fb = {| shown := lit "Failed to send message: " ++ reason 400;
                      formReset := false |}
           /\ fst res = db)
       \/ (status r = 500
           /\ fb = {| shown := lit "Failed to send message: Could not save contact.";
                      formReset := false |}
           /\ fst res = db).
Proof.
  intros Hstr. simpl. unfold contact, insertContact.
  destruct (validateContact_cases (bodyOf formData))
    as [(errors & -> & _)|(n & e & m & _ & _ & _ & ->)].
  - eexists. split; [reflexivity|]. right. left.
    split; [reflexivity|]. split; [|reflexivity]. feedback Hstr.
  - destruct (dbError w); cbn [mbind fst snd].
    + eexists. split; [reflexivity|]. right. right.
      split; [reflexivity|]. split; [|reflexivity]. feedback Hstr.
    + eexists. split; [reflexivity|]. left.
      split; [reflexivity|]. split; [|reflexivity]. feedback Hstr.
Qed.

Lemma contact_form_feedback_witness :
  exists r,
    snd (contact quietWorld emptyDb
           (bodyOf {[ "name" := lit "Ada"; "email" := lit "ada@example.org";
                      "message" := lit "Hello there, Ada here." ]})) = Responded r
    /\ status r = 200
    /\ contactFeedback textOnly (deliver reasonPhrase r)
       = {| shown := lit "Message sent " ++ [8212%N] ++ lit " thank you!";
            formReset := true |}.
Proof.
  destruct (contact_form_feedback textOnly reasonPhrase quietWorld emptyDb
              {[ "name" := lit "Ada"; "email" := lit "ada@example.org";
                 "message" := lit "Hello there, Ada here." ]} (fun t => eq_refl))
    as (r & Hr & H).
  exists r. split; [exact Hr|].
  assert (Hs : status r = 200).
  { vm_compute in Hr. injection Hr as <-. reflexivity. }
  split; [exact Hs|].
  destruct H as [(_ & Hfb & _)|[(H400 & _)|(H500 & _)]].
  - exact Hfb.
  - rewrite Hs in H400. discriminate H400.
  - rewrite Hs in H500. discriminate H500.
Defined.

(** ** The credentials of the admin gate *)

Lemma split_not_nil sep s : split sep s <> [].
Proof.
  destruct s as [|c s]; simpl; [done|].
  destruct (c =? sep)%N; [done|]. by destruct (split sep s).
Qed.

Lemma split_no_sep sep s : sep ∉ s -> split sep s = [s].
Proof.
  induction s as [|c s IH]; intros H; simpl; [done|].
  apply not_elem_of_cons in H as [Hc Hs].
  destruct (N.eqb_spec c sep); [congruence|]. by rewrite IH.
Qed.

Lemma split_app_sep sep u p :
  sep ∉ u -> split sep (u ++ sep :: p) = u :: split sep p.
Proof.
  induction u as [|c u IH]; intros H; simpl.
  - by rewrite N.eqb_refl.
  - apply not_elem_of_cons in H as [Hc Hu].
    destruct (N.eqb_spec c sep); [congruence|]. by rewrite IH.
Qed.

(** Joining what split gave back restores the string. *)
Lemma join_split sep s : join [sep] (split sep s) = s.
Proof.
  induction s as [|c s IH]; simpl; [done|].
  destruct (N.eqb_spec c sep) as [->|Hc].
  - pose proof (split_not_nil sep s).
    destruct (split sep s) as [|p ps] eqn:Hs; [done|].
    simpl. simpl in IH. by rewrite IH.
  - pose proof (split_not_nil sep s).
    destruct (split sep s) as [|p ps] eqn:Hs; [done|].
    destruct ps; simpl in *; by rewrite <- IH.
Qed.

Lemma hd_split_no_sep sep s : sep ∉ hd [] (split sep s).
Proof.
  induction s as [|c s IH]; simpl; [apply not_elem_of_nil|].
  destruct (N.eqb_spec c sep) as [->|Hc]; simpl; [apply not_elem_of_nil|].
  destruct (split sep s) as [|p ps]; simpl in *.
  - apply not_elem_of_cons. split; [congruence|apply not_elem_of_nil].
  - apply not_elem_of_cons. split; [congruence|done].
Qed.

Lemma startsWith_app p s : startsWith p (p ++ s) = true.
Proof. induction p as [|c p IH]; simpl; [done|]. by rewrite N.eqb_refl. Qed.

Lemma adminPass_not_empty env : adminPass env <> [].
Proof.
  unfold adminPass, envSet. destruct (env !! "ADMIN_PASS") as [v|]; [|done].
  case_bool_decide; done.
Qed.

Lemma adminUser_not_empty env : adminUser env <> [].
Proof.
  unfold adminUser, envSet. destruct (env !! "ADMIN_USER") as [v|]; [|done].
  case_bool_decide; done.
Qed.

Ltac not_in_literal := apply (bool_decide_unpack _); vm_compute; exact I.

Section Credentials.

(** [Buffer.from(token, 'base64').toString()]: any decoder. *)
Variable decodeBase64 : jsstring -> jsstring.

Lemma parseBasicAuth_token (reqHeaders : gmap string jsstring) token :
  reqHeaders !! "authorization" = Some (lit "Basic " ++ token) ->
  32%N ∉ token ->
  parseBasicAuth decodeBase64 reqHeaders
  = Some {| user := hd [] (split 58 (decodeBase64 token));
            pass := join (lit ":") (tl (split 58 (decodeBase64 token))) |}.
Proof.
  intros Hh Htok.
  assert (Hsplit : split 32 (lit "Basic " ++ token) = [lit "Basic"; token]).
  { change (lit "Basic " ++ token) with (lit "Basic" ++ 32%N :: token).
    rewrite split_app_sep by not_in_literal.
    by rewrite (split_no_sep _ _ Htok). }
  assert (Hne : bool_decide (lit "Basic " ++ token = []) = false)
    by (by apply bool_decide_eq_false_2).
  unfold parseBasicAuth. rewrite Hh, Hne, startsWith_app, Hsplit.
  cbn [negb orb nth]. rewrite !orElse_nil. reflexivity.
Qed.

End Credentials.

(** X26. A Basic-Auth header whose token decodes to a user, a colon and a
    password gives exactly that user and that password, colons in the
    password included, and the gate admits the request exactly when they
    equal the configured credentials. *)
Theorem basic_auth_credentials_round_trip (decodeBase64 : jsstring -> jsstring)
    env (reqHeaders : gmap string jsstring) token u p :
  reqHeaders !! "authorization" = Some (lit "Basic " ++ token) ->
  32%N ∉ token ->
  decodeBase64 token = u ++ [58%N] ++ p ->
  58%N ∉ u ->
  parseBasicAuth decodeBase64 reqHeaders = Some {| user := u; pass := p |}
  /\ (requireAdmin decodeBase64 env reqHeaders = Next
      <-> u = adminUser env /\ p = adminPass env).
Proof.
  intros Hh Htok Hdec Hu.
  assert (Hp : parseBasicAuth decodeBase64 reqHeaders = Some {| user := u; pass := p |}).
  { rewrite (parseBasicAuth_token decodeBase64 reqHeaders token Hh Htok), Hdec.
    simpl app. rewrite split_app_sep by done. simpl hd. simpl tl.
    change (lit ":") with [58%N]. by rewrite join_split. }
  split; [exact Hp|].
  rewrite requireAdmin_next, Hp. split.
  - intros (creds & [= <-] & H1 & H2). done.
  - intros [H1 H2]. eexists. split; [reflexivity|]. done.
Qed.

Lemma basic_auth_credentials_round_trip_witness :
  parseBasicAuth base64Ascii (adminHeaders "YTpiOmM=")
  = Some {| user := lit "a"; pass := lit "b:c" |}.
Proof.
  apply (proj1 (basic_auth_credentials_round_trip base64Ascii ∅
                  (adminHeaders "YTpiOmM=") (lit "YTpiOmM=") (lit "a") (lit "b:c")
                  eq_refl ltac:(not_in_literal) ltac:(vm_compute; reflexivity)
                  ltac:(not_in_literal))).
Defined.

(** X27. Whatever the configuration, the gate admits a request only with
    a user that is not empty and holds no colon and a password that is not
    empty: an ADMIN_USER holding a colon can never log in, and no header
    without a password is accepted. *)
Theorem admitted_credentials_are_well_formed (decodeBase64 : jsstring -> jsstring)
    env (reqHeaders : gmap string jsstring) :
  requireAdmin decodeBase64 env reqHeaders = Next ->
  exists creds,
    parseBasicAuth decodeBase64 reqHeaders = Some creds
    /\ user creds = adminUser env /\ pass creds = adminPass env
    /\ user creds <> [] /\ pass creds <> [] /\ 58%N ∉ user creds.
Proof.
  intros H. apply requireAdmin_next in H as (creds & Hp & Hu & Hpw).
  exists creds. split; [done|]. split; [done|]. split; [done|].
  split; [rewrite Hu; apply adminUser_not_empty|].
  split; [rewrite Hpw; apply adminPass_not_empty|].
  unfold parseBasicAuth in Hp.
  destruct (reqHeaders !! "authorization") as [h|]; [|discriminate].
  destruct (_ || _); [discriminate|]. injection Hp as <-. simpl.
  rewrite orElse_nil. apply hd_split_no_sep.
Qed.

Lemma admitted_credentials_are_well_formed_witness :
  exists creds,
    parseBasicAuth base64Ascii (adminHeaders "YWRtaW46YWRtaW4xMjM=") = Some creds
    /\ user creds = lit "admin" /\ pass creds = lit "admin123".
Proof.
  destruct (admitted_credentials_are_well_formed base64Ascii ∅
              (adminHeaders "YWRtaW46YWRtaW4xMjM="))
    as (creds & Hp & Hu & Hpw & _).
  - vm_compute. reflexivity.
  - exists creds. split; [exact Hp|]. split; [exact Hu|exact Hpw].
Defined.
